(** * The giveaway cog ([cogs/giveaway.py]): a shallow embedding

    The cog keeps every giveaway in one dictionary, [active_giveaways], keyed
    by the id of the giveaway message.  The commands ([create], [end],
    [reroll], [list], [cancel]) and the periodic task [check_giveaways] read
    and update that dictionary and talk to the chat platform.

    - Python [str] is [string] for text made of ASCII characters, where
      [\d] is [0-9] and [str.lower] only touches [A-Z].  [Text] has
      [parse_time] on any text, as its code points, with the tables of the
      Unicode database as parameters, and it is [parse_time] on ASCII text
      (see [parse_time_text]).
    - Python [int] is [Z]; ids and clock readings are [Z] as well.
    - The dictionary is a [gmap Z giveaway].
    - The platform (channel cache, message fetch, edits, sends, the clock)
      is a record of answers, [world]; each call can succeed, raise
      [discord.NotFound], or raise something else.
    - [random.sample] draws from an explicit supply of numbers, [rng]. *)

From Stdlib Require Import ZArith String Ascii.
From stdpp Require Import base option list gmap fin_maps.
Open Scope string_scope.
Open Scope Z_scope.

(** ** Characters and strings *)

Module Str.

Definition code (c : ascii) : Z := Z.of_N (N_of_ascii c).

Definition is_digit (c : ascii) : bool := (48 <=? code c) && (code c <=? 57).

Definition digit_val (c : ascii) : Z := code c - 48.

(** The blanks that [int] drops around a numeral, on the ASCII range: tab,
    LF, VT, FF, CR and the space. *)
Definition is_space (c : ascii) : bool :=
  ((9 <=? code c) && (code c <=? 13)) || (code c =? 32).

Definition lower_ascii (c : ascii) : ascii :=
  if (65 <=? code c) && (code c <=? 90)
  then ascii_of_N (N_of_ascii c + 32)
  else c.

(** [s.lower()] *)
Fixpoint lower (s : string) : string :=
  match s with
  | "" => ""
  | String c t => String (lower_ascii c) (lower t)
  end.

Fixpoint all_digits (s : string) : bool :=
  match s with
  | "" => true
  | String c t => is_digit c && all_digits t
  end.

(** The value of a decimal numeral, most significant digit first. *)
Fixpoint decimal_from (acc : Z) (s : string) : Z :=
  match s with
  | "" => acc
  | String c t => decimal_from (acc * 10 + digit_val c) t
  end.

Definition decimal (s : string) : Z := decimal_from 0 s.

Fixpoint lstrip (s : string) : string :=
  match s with
  | "" => ""
  | String c t => if is_space c then lstrip t else s
  end.

Fixpoint rstrip (s : string) : string :=
  match s with
  | "" => ""
  | String c t =>
      match rstrip t with
      | "" => if is_space c then "" else String c ""
      | t' => String c t'
      end
  end.

(** The digits of an [int] literal: a digit is required at the head of [s];
    a single underscore may stand between two digits. *)
Fixpoint int_digits (acc : Z) (s : string) : option Z :=
  match s with
  | "" => None
  | String c t =>
      if is_digit c then
        let acc' := acc * 10 + digit_val c in
        match t with
        | "" => Some acc'
        | String c' t' =>
            if Ascii.eqb c' "_" then int_digits acc' t' else int_digits acc' t
        end
      else None
  end.

(** [int(s)] for a string argument, base ten: surrounding white space is
    dropped, one sign is allowed, then come the digits.  [None] is
    [ValueError].  Integers are unbounded; the inputs are command arguments,
    far shorter than the interpreter's limit on numeral length. *)
Definition py_int (s : string) : option Z :=
  match rstrip (lstrip s) with
  | "" => None
  | String c t as s' =>
      if Ascii.eqb c "-" then Z.opp <$> int_digits 0 t
      else if Ascii.eqb c "+" then int_digits 0 t
      else int_digits 0 s'
  end.

End Str.

(** ** [Giveaway.parse_time] *)

Definition is_unit (c : ascii) : bool :=
  Ascii.eqb c "s" || Ascii.eqb c "m" || Ascii.eqb c "h" || Ascii.eqb c "d".

(** [re.match(r'(\d+)([smhd])', s)]: the match is anchored at the start
    of [s] only.  [\d+] is greedy: it first tries to take one more digit,
    and gives a digit back when the rest of the pattern fails behind it.
    The result is the pair of groups. *)
Fixpoint re_match (s : string) : option (string * ascii) :=
  match s with
  | "" => None
  | String c t =>
      if Str.is_digit c then
        match re_match t with
        | Some (ds, u) => Some (String c ds, u)
        | None =>
            match t with
            | String u _ => if is_unit u then Some (String c "", u) else None
            | "" => None
            end
        end
      else None
  end.

(** [None] is the [ValueError] of the source.  The last branch is the end of
    the function body, which the pattern makes unreachable
    (see [re_match_unit]). *)
Definition parse_time (time_str : string) : option Z :=
  match re_match (Str.lower time_str) with
  | None => None
  | Some (value, unit) =>
      match Str.py_int value with
      | None => None
      | Some value =>
          if Ascii.eqb unit "s" then Some value
          else if Ascii.eqb unit "m" then Some (value * 60)
          else if Ascii.eqb unit "h" then Some (value * 3600)
          else if Ascii.eqb unit "d" then Some (value * 86400)
          else None
      end
  end.

(** The number of seconds in one unit. *)
Definition unit_seconds (u : ascii) : Z :=
  if Ascii.eqb u "s" then 1
  else if Ascii.eqb u "m" then 60
  else if Ascii.eqb u "h" then 3600
  else 86400.

(** The pattern of the specification, [^\d+[smhd]$] with the unit letter in
    either case: the whole string is a non-empty run of digits followed by
    exactly one unit letter. *)
Fixpoint spec_pattern (s : string) : bool :=
  match s with
  | "" => false
  | String c t =>
      Str.is_digit c &&
      match t with
      | String u "" => is_unit (Str.lower_ascii u)
      | _ => spec_pattern t
      end
  end.

(** ** The stored giveaway *)

(** One value of [active_giveaways].  The key ['cancelled'] is absent from
    the dictionary until [cancel_giveaway] writes [True] into it; an absent
    key is [false] here.  No code path reads it. *)
Record giveaway := Giveaway {
  channel_id : Z;
  message_id : Z;
  host_id : Z;
  prize : string;
  winner_count : Z;
  end_time : Z;
  ended : bool;
  cancelled : bool
}.

(** [giveaway['ended'] = v] *)
Definition set_ended (v : bool) (g : giveaway) : giveaway :=
  Giveaway (channel_id g) (message_id g) (host_id g) (prize g)
           (winner_count g) (end_time g) v (cancelled g).

(** [giveaway['cancelled'] = v] *)
Definition set_cancelled (v : bool) (g : giveaway) : giveaway :=
  Giveaway (channel_id g) (message_id g) (host_id g) (prize g)
           (winner_count g) (end_time g) (ended g) v.

(** The three states of the specification, read off the two flags. *)
Inductive state := Active | Ended | Cancelled.

Definition state_of (g : giveaway) : state :=
  if ended g then (if cancelled g then Cancelled else Ended) else Active.

(** ** The platform *)

Record user := User { user_id : Z; bot : bool }.

#[global] Instance user_eq_dec : EqDecision user.
Proof. solve_decision. Defined.

Record reaction := Reaction { emoji : string; users : list user }.

(** The outcome of a platform call: a value, [discord.NotFound], or another
    exception ([Forbidden], [HTTPException], ...). *)
Inductive api (A : Type) : Type :=
| ApiOk (a : A)
| ApiNotFound
| ApiError.
Arguments ApiOk {A} a.
Arguments ApiNotFound {A}.
Arguments ApiError {A}.

(** A fetched message: its reactions and the outcome of [message.edit]. *)
Record message := Message { reactions : list reaction; edit : api unit }.

(** A cached channel: [channel.fetch_message] and [channel.send]. *)
Record channel := Channel { fetch_message : Z -> api message; send : api unit }.

(** What the platform answers while one command or one tick runs. *)
Record world := World {
  now : Z;                              (* datetime.datetime.now() *)
  get_channel : Z -> option channel;    (* bot.get_channel *)
  fetch_user : Z -> api unit            (* bot.fetch_user *)
}.

(** The invocation context of a command.  What [ctx.send] sends is recorded
    in the trace (see [event]); a reply to the context the command came from
    is taken to be delivered.  The message [create_giveaway] posts gets the
    id [sent_id], and [add_reaction] is the outcome of adding the reaction
    to it. *)
Record context := Context {
  ctx_channel : Z;
  ctx_author : Z;
  sent_id : Z;
  add_reaction : api unit
}.

(** The supply of random numbers behind [random.sample]. *)
Definition rng := nat -> nat.

(** [randbelow(n)] *)
Definition randbelow (n : nat) (r : rng) : nat * rng :=
  ((r 0 mod n)%nat, fun i => r (S i)).

(** [random.sample(population, k)], as the library computes it from a pool:
    the [i]-th draw picks a position among the first [n - i] of the pool and
    the last of them moves into the vacancy.  Here the pool is cut by one
    after each draw, where the library narrows the range of the next draw.
    The cog calls it with [0 < k <= len(population)] only; the last branch
    is the empty pool, which such a call never meets. *)
Fixpoint sample {A : Type} (pool : list A) (k : nat) (r : rng) : list A * rng :=
  match k with
  | O => ([], r)
  | S k' =>
      let n := length pool in
      let (j, r1) := randbelow n r in
      match pool !! j, last pool with
      | Some x, Some y =>
          let (rest, r2) := sample (take (n - 1) (<[j := y]> pool)) k' r1 in
          (x :: rest, r2)
      | _, _ => ([], r1)
      end
  end.

(** ** What the cog sends *)

(** The texts of [ctx.send]. *)
Inductive reply :=
| InvalidTimeFormat
| TimeNotPositive
| WinnersNotNumber
| WinnersNotPositive
| WinnersTooMany
| GiveawayCreated (id : Z)
| NoActiveGiveaway
| GiveawayEnded
| NoGiveawayFound
| NotEndedYet
| ChannelNotFound
| MessageNotFound
| NoReactions
| NewWinners (winners : list user)
| NoNewWinners
| NoActiveGiveaways
| ActiveList (entries : list (Z * giveaway))
| AlreadyEnded
| GiveawayCancelled
| MessageDeleted.

Inductive event :=
| Reply (r : reply)                         (* ctx.send of a text *)
| SendGiveaway (id : Z)                     (* ctx.send of the giveaway embed *)
| EditEnded (id : Z) (winners : list user)  (* message.edit, "GIVEAWAY ENDED" *)
| EditCancelled (id : Z)                    (* message.edit, "GIVEAWAY CANCELLED" *)
| Announce (id : Z) (winners : list user)   (* channel.send *)
| LogError (id : Z).                        (* logger.error *)

(** How a call ends: it returns, or an exception leaves it. *)
Inductive exit := Returned | Raised.

Record result := Result {
  res_store : gmap Z giveaway;
  res_trace : list event;
  res_rng : rng;
  res_exit : exit
}.

(** ** The operations *)

(** The first reaction whose emoji is the party popper. *)
Definition find_reaction (m : message) : option reaction :=
  List.find (fun r => String.eqb (emoji r) "🎉") (reactions m).

(** The users of the reaction that are not bots. *)
Definition entrants (rc : reaction) : list user :=
  List.filter (fun u => negb (bot u)) (users rc).

(** [winner_count = min(count, len(users))], then
    [random.sample(users, winner_count) if winner_count > 0 else []]. *)
Definition select_winners (count : Z) (us : list user) (r : rng)
  : list user * rng :=
  let winner_count := Z.min count (Z.of_nat (length us)) in
  if 0 <? winner_count then sample us (Z.to_nat winner_count) r else ([], r).

(** The users a fetched message enters into the draw: those of its party
    popper reaction, or nobody when it has no such reaction. *)
Definition message_entrants (m : message) : list user :=
  match find_reaction m with
  | None => []
  | Some rc => entrants rc
  end.

(** The winners [end_giveaway] draws once it holds the message: [[]] without
    the reaction, a sample of its users otherwise. *)
Definition draw_winners (g : giveaway) (m : message) (r : rng) : list user * rng :=
  match find_reaction m with
  | None => ([], r)
  | Some rc => select_winners (winner_count g) (entrants rc) r
  end.

(** [Giveaway.end_giveaway] *)
Definition end_giveaway (w : world) (r : rng) (st : gmap Z giveaway) (giveaway_id : Z)
  : result :=
  match st !! giveaway_id with
  | None => Result st [] r Returned
  | Some g =>
      let g := set_ended true g in
      let st := <[giveaway_id := g]> st in
      match get_channel w (channel_id g) with
      | None => Result st [LogError giveaway_id] r Returned
      | Some ch =>
          match fetch_message ch (message_id g) with
          | ApiNotFound => Result st [LogError giveaway_id] r Returned
          | ApiError => Result st [] r Raised
          | ApiOk msg =>
              let (winners, r) := draw_winners g msg r in
              match fetch_user w (host_id g) with
              | ApiOk _ =>
                  match edit msg with
                  | ApiOk _ =>
                      match send ch with
                      | ApiOk _ =>
                          Result st [EditEnded giveaway_id winners;
                                     Announce giveaway_id winners] r Returned
                      | _ => Result st [EditEnded giveaway_id winners] r Raised
                      end
                  | _ => Result st [] r Raised
                  end
              | _ => Result st [] r Raised
              end
          end
      end
  end.

(** [Giveaway.check_giveaways], the loop over the snapshot of the keys.
    A key missing from the dictionary is a [KeyError], which leaves the
    task; an exception of [end_giveaway] is caught and logged. *)
Fixpoint check_loop (w : world) (giveaway_ids : list Z) (r : rng)
  (st : gmap Z giveaway) : result :=
  match giveaway_ids with
  | [] => Result st [] r Returned
  | giveaway_id :: ids =>
      match st !! giveaway_id with
      | None => Result st [] r Raised
      | Some g =>
          if end_time g <=? now w then
            let res := end_giveaway w r st giveaway_id in
            let logged :=
              match res_exit res with
              | Raised => [LogError giveaway_id]
              | Returned => []
              end in
            let rest := check_loop w ids (res_rng res) (res_store res) in
            Result (res_store rest)
                   (res_trace res ++ logged ++ res_trace rest)
                   (res_rng rest) (res_exit rest)
          else check_loop w ids r st
      end
  end.

(** [list(self.active_giveaways.keys())].  Python lists the keys in the
    order of their insertion, [map_to_list] in an order of its own; what is
    proved about [check_loop] is proved for every list of ids. *)
Definition keys (st : gmap Z giveaway) : list Z := (map_to_list st).*1.

(** The tick, when no command runs while it waits; [check_giveaways_with]
    below is the tick among the commands. *)
Definition check_giveaways (w : world) (r : rng) (st : gmap Z giveaway) : result :=
  check_loop w (keys st) r st.

(** [Giveaway.end_giveaway_command] *)
Definition end_giveaway_command (w : world) (r : rng) (st : gmap Z giveaway)
  (msg_id : Z) : result :=
  match st !! msg_id with
  | None => Result st [Reply NoActiveGiveaway] r Returned
  | Some _ =>
      let res := end_giveaway w r st msg_id in
      match res_exit res with
      | Raised => res
      | Returned =>
          Result (res_store res) (res_trace res ++ [Reply GiveawayEnded])
                 (res_rng res) Returned
      end
  end.

(** Clock readings count whole seconds from the first instant a [datetime]
    can hold; [datetime_end] is the first instant it cannot hold
    (the end of the year 9999). *)
Definition datetime_end : Z := 3652059 * 86400.

(** [t + datetime.timedelta(seconds=seconds)]; [None] is [OverflowError]. *)
Definition datetime_add (t seconds : Z) : option Z :=
  if t + seconds <? datetime_end then Some (t + seconds) else None.

(** [Giveaway.create_giveaway] *)
Definition create_giveaway (w : world) (ctx : context) (r : rng)
  (st : gmap Z giveaway) (time_str winners_str prize : string) : result :=
  match parse_time time_str with
  | None => Result st [Reply InvalidTimeFormat] r Returned
  | Some seconds =>
      if seconds <=? 0 then Result st [Reply TimeNotPositive] r Returned
      else
        match Str.py_int winners_str with
        | None => Result st [Reply WinnersNotNumber] r Returned
        | Some winners =>
            if winners <=? 0 then Result st [Reply WinnersNotPositive] r Returned
            else if 20 <? winners then Result st [Reply WinnersTooMany] r Returned
            else
              match datetime_add (now w) seconds with
              | None => Result st [] r Raised
              | Some end_time =>
                  match add_reaction ctx with
                  | ApiOk _ =>
                      Result
                        (<[sent_id ctx :=
                             Giveaway (ctx_channel ctx) (sent_id ctx) (ctx_author ctx)
                                      prize winners end_time false false]> st)
                        [SendGiveaway (sent_id ctx);
                         Reply (GiveawayCreated (sent_id ctx))] r Returned
                  | _ => Result st [SendGiveaway (sent_id ctx)] r Raised
                  end
              end
        end
  end.

(** The winner count of a reroll: [winners_str] when it is given and not
    empty, the stored count otherwise.  [inl] carries the refusal. *)
Definition reroll_count (g : giveaway) (winners_str : option string) : reply + Z :=
  match winners_str with
  | Some (String _ _ as s) =>
      match Str.py_int s with
      | None => inl WinnersNotNumber
      | Some winner_count =>
          if winner_count <=? 0 then inl WinnersNotPositive
          else if 20 <? winner_count then inl WinnersTooMany
          else inr winner_count
      end
  | _ => inr (winner_count g)
  end.

(** [Giveaway.reroll_giveaway] *)
Definition reroll_giveaway (w : world) (r : rng) (st : gmap Z giveaway)
  (msg_id : Z) (winners_str : option string) : result :=
  match st !! msg_id with
  | None => Result st [Reply NoGiveawayFound] r Returned
  | Some g =>
      if negb (ended g) then Result st [Reply NotEndedYet] r Returned
      else
        match reroll_count g winners_str with
        | inl refusal => Result st [Reply refusal] r Returned
        | inr winner_count =>
            match get_channel w (channel_id g) with
            | None => Result st [Reply ChannelNotFound] r Returned
            | Some ch =>
                match fetch_message ch (message_id g) with
                | ApiNotFound => Result st [Reply MessageNotFound] r Returned
                | ApiError => Result st [] r Raised
                | ApiOk msg =>
                    match find_reaction msg with
                    | None => Result st [Reply NoReactions] r Returned
                    | Some rc =>
                        let (winners, r) :=
                          select_winners winner_count (entrants rc) r in
                        match winners with
                        | [] => Result st [Reply NoNewWinners] r Returned
                        | _ => Result st [Reply (NewWinners winners)] r Returned
                        end
                    end
                end
            end
        end
  end.

(** [Giveaway.list_giveaways]: the dictionary comprehension keeps the
    giveaways whose ['ended'] is false; the embed has one field for each. *)
Definition list_giveaways (st : gmap Z giveaway) : reply :=
  let active_giveaways := filter (fun kv => ended kv.2 = false) st in
  if decide (active_giveaways = ∅) then NoActiveGiveaways
  else ActiveList (map_to_list active_giveaways).

(** [Giveaway.cancel_giveaway], the [except discord.NotFound] branch. *)
Definition cancel_not_found (r : rng) (st : gmap Z giveaway) (msg_id : Z)
  : result :=
  Result (delete msg_id st) [Reply MessageDeleted] r Returned.

(** [Giveaway.cancel_giveaway] *)
Definition cancel_giveaway (w : world) (r : rng) (st : gmap Z giveaway)
  (msg_id : Z) : result :=
  match st !! msg_id with
  | None => Result st [Reply NoGiveawayFound] r Returned
  | Some g =>
      if ended g then Result st [Reply AlreadyEnded] r Returned
      else
        match get_channel w (channel_id g) with
        | None => Result st [Reply ChannelNotFound] r Returned
        | Some ch =>
            match fetch_message ch (message_id g) with
            | ApiNotFound => cancel_not_found r st msg_id
            | ApiError => Result st [] r Raised
            | ApiOk msg =>
                match fetch_user w (host_id g) with
                | ApiNotFound => cancel_not_found r st msg_id
                | ApiError => Result st [] r Raised
                | ApiOk _ =>
                    match edit msg with
                    | ApiNotFound => cancel_not_found r st msg_id
                    | ApiError => Result st [] r Raised
                    | ApiOk _ =>
                        Result
                          (<[msg_id := set_cancelled true (set_ended true g)]> st)
                          [EditCancelled msg_id; Reply GiveawayCancelled]
                          r Returned
                    end
                end
            end
        end
  end.

(** ** Views of the dictionary used in the statements *)

(** Every stored giveaway records, as its ['message_id'], the key it is
    stored under. *)
Definition store_consistent (st : gmap Z giveaway) : Prop :=
  map_Forall (fun k g => message_id g = k) st.

(** The replies that refuse the arguments of [create]. *)
Definition invalid_argument (e : reply) : bool :=
  match e with
  | InvalidTimeFormat | TimeNotPositive
  | WinnersNotNumber | WinnersNotPositive | WinnersTooMany => true
  | _ => false
  end.

(** The entries [list_giveaways] shows. *)
Definition listed (st : gmap Z giveaway) : list (Z * giveaway) :=
  match list_giveaways st with
  | ActiveList entries => entries
  | _ => []
  end.

(** ** A small platform to run the cog on *)

Module Demo.

Definition alice : user := User 1 false.
Definition bob : user := User 2 false.
Definition helper_bot : user := User 3 true.

Definition party : reaction := Reaction "🎉" [alice; helper_bot; bob].
Definition thumbs : reaction := Reaction "👍" [bob].

Definition msg : message := Message [thumbs; party] (ApiOk ()).
Definition chan : channel := Channel (fun _ => ApiOk msg) (ApiOk ()).

(** Every call succeeds; the clock reads 100. *)
Definition online : world := World 100 (fun _ => Some chan) (fun _ => ApiOk ()).

(** The channel of the giveaway is not in the cache. *)
Definition no_channel : world := World 100 (fun _ => None) (fun _ => ApiOk ()).

(** The channel is there, the giveaway message is gone. *)
Definition no_message : world :=
  World 100 (fun _ => Some (Channel (fun _ => ApiNotFound) (ApiOk ())))
        (fun _ => ApiOk ()).

Definition ctx : context := Context 10 20 7 (ApiOk ()).

(** Two supplies of random numbers. *)
Definition zeros : rng := fun _ => 0%nat.
Definition ones : rng := fun _ => 1%nat.

(** A giveaway for one winner, due at 50, under the key 7. *)
Definition running : giveaway := Giveaway 10 7 20 "Nitro" 1 50 false false.
Definition finished : giveaway := set_ended true running.
Definition called_off : giveaway := set_cancelled true (set_ended true running).

End Demo.

(** ** The time left, as [list_giveaways] writes it *)

Module Fmt.

(** The character of the decimal digit [d]. *)
Definition digit_char (d : Z) : ascii := ascii_of_N (Z.to_N (48 + d)).

(** The decimal digits of [n], put in front of [acc]; [fuel] bounds their
    number. *)
Fixpoint digits (fuel : nat) (n : Z) (acc : string) : string :=
  match fuel with
  | O => acc
  | S fuel' =>
      let acc' := String (digit_char (n mod 10)) acc in
      if n / 10 =? 0 then acc' else digits fuel' (n / 10) acc'
  end.

(** [str(n)] for an [int], as the f-strings use it.  A number has no more
    decimal digits than binary ones. *)
Definition py_str (n : Z) : string :=
  if n <? 0 then String "-" (digits (S (Z.to_nat (Z.log2 (- n)))) (- n) "")
  else digits (S (Z.to_nat (Z.log2 n))) n "".

(** [sep.join(parts)] *)
Fixpoint join (sep : string) (parts : list string) : string :=
  match parts with
  | [] => ""
  | [p] => p
  | p :: rest => (p ++ sep ++ join sep rest)%string
  end.

End Fmt.

(** A [timedelta] is a whole number of microseconds; [days] and [seconds]
    are its normalised fields ([0 <= seconds < 86400]). *)
Definition td_days (td : Z) : Z := td / 86400000000.
Definition td_seconds (td : Z) : Z := (td / 1000000) mod 86400.

(** The list [time_parts] that [list_giveaways] builds for a positive
    [time_left] (lines 347-359). *)
Definition time_parts (time_left : Z) : list string :=
  let days := td_days time_left in
  let hours := td_seconds time_left / 3600 in
  let remainder := td_seconds time_left mod 3600 in
  let minutes := remainder / 60 in
  let seconds := remainder mod 60 in
  let time_parts :=
    ((if 0 <? days then [(Fmt.py_str days ++ "d")%string] else [])
     ++ (if 0 <? hours then [(Fmt.py_str hours ++ "h")%string] else [])
     ++ (if 0 <? minutes then [(Fmt.py_str minutes ++ "m")%string] else []))%list in
  match time_parts with
  | [] => if 0 <? seconds then [(Fmt.py_str seconds ++ "s")%string] else []
  | _ => time_parts
  end.

(** [time_str] of [list_giveaways] for [time_left = end_time - now]
    (lines 343-361); [total_seconds() <= 0] holds exactly when the number of
    microseconds is not positive. *)
Definition time_left_str (time_left : Z) : string :=
  if time_left <=? 0 then "Ending soon..."
  else (Fmt.join " " (time_parts time_left) ++ " left")%string.

(** The seconds that a list of time texts stands for, each read by
    [parse_time]. *)
Definition parts_seconds (parts : list string) : Z :=
  foldr (fun p acc => default 0 (parse_time p) + acc) 0 parts.

(** ** Relations between two states of the dictionary *)

(** What [create_giveaway] fixes: everything but the two flags. *)
Definition same_terms (g g' : giveaway) : Prop :=
  channel_id g' = channel_id g ∧ message_id g' = message_id g ∧
  host_id g' = host_id g ∧ prize g' = prize g ∧
  winner_count g' = winner_count g ∧ end_time g' = end_time g.

(** A flag that is set stays set. *)
Definition flags_kept (g g' : giveaway) : Prop :=
  (ended g = true → ended g' = true) ∧
  (cancelled g = true → cancelled g' = true).

(** Every giveaway of [st'] was already in [st], with the same terms and
    with no flag cleared. *)
Definition store_evolves (st st' : gmap Z giveaway) : Prop :=
  ∀ id g', st' !! id = Some g' →
           ∃ g, st !! id = Some g ∧ same_terms g g' ∧ flags_kept g g'.

(** Whether an event is a text sent to the invoking context. *)
Definition is_reply (e : event) : bool :=
  match e with
  | Reply _ => true
  | _ => false
  end.

(** ** More platforms to run the cog on *)

Module Cases.

(** Every call succeeds; the clock reads 10, before [Demo.running] is due. *)
Definition early : world :=
  World 10 (fun _ => Some Demo.chan) (fun _ => ApiOk ()).

(** A second giveaway, under the key 8, whose channel is not in the cache. *)
Definition stray : giveaway := Giveaway 11 8 20 "Skin" 2 40 false false.

(** Channel 10 is cached, channel 11 is not. *)
Definition patchy : world :=
  World 100 (fun c => if c =? 10 then Some Demo.chan else None)
        (fun _ => ApiOk ()).



(** A third giveaway, under the key 8, due at 400. *)
Definition later : giveaway := Giveaway 10 8 20 "Skin" 2 400 false false.

(** Message 7 is there, every other message has been deleted. *)
Definition swept : world :=
  World 100
        (fun _ => Some (Channel (fun id => if id =? 7 then ApiOk Demo.msg
                                           else ApiNotFound)
                                (ApiOk ())))
        (fun _ => ApiOk ()).

End Cases.

(** ** [parse_time] on any text *)

Module Text.

(** The code points of a text written with 8-bit characters. *)
Definition of_string (s : string) : list N :=
  N_of_ascii <$> list_ascii_of_string s.

(** [s], [m], [h], [d] *)
Definition is_unit (c : N) : bool :=
  ((c =? 115) || (c =? 109) || (c =? 104) || (c =? 100))%N.

Definition unit_seconds (c : N) : Z :=
  if (c =? 115)%N then 1
  else if (c =? 109)%N then 60
  else if (c =? 104)%N then 3600
  else 86400.

(** What [str.lower] makes of an ASCII character. *)
Definition lower_ascii (c : N) : N :=
  if ((65 <=? c) && (c <=? 90))%N then (c + 32)%N else c.

(** In what follows [decimal] is the table of decimal digits of the Unicode
    database: [decimal c] is the value of the code point [c] when it is a
    decimal digit (category Nd), which is what [\d] matches and what [int]
    reads.  [lower] is [str.lower]. *)
Definition is_digit (decimal : N → option Z) (c : N) : bool :=
  match decimal c with
  | Some _ => true
  | None => false
  end.

(** [re.match(r'(\d+)([smhd])', s)], as [re_match] above. *)
Fixpoint re_match (decimal : N → option Z) (s : list N) : option (list N * N) :=
  match s with
  | [] => None
  | c :: t =>
      if is_digit decimal c then
        match re_match decimal t with
        | Some (ds, u) => Some (c :: ds, u)
        | None =>
            match t with
            | u :: _ => if is_unit u then Some ([c], u) else None
            | [] => None
            end
        end
      else None
  end.

(** The value of a numeral, most significant digit first. *)
Fixpoint decimal_from (decimal : N → option Z) (acc : Z) (ds : list N) : Z :=
  match ds with
  | [] => acc
  | c :: t => decimal_from decimal (acc * 10 + default 0 (decimal c)) t
  end.

(** [int(value)] for the first group of the pattern, which holds decimal
    digits and nothing else; [None] is [ValueError].  As for [Str.py_int],
    the numeral is shorter than the interpreter's limit on numeral length,
    which is beyond what a chat message holds. *)
Definition int_of_digits (decimal : N → option Z) (value : list N) : option Z :=
  match value with
  | [] => None
  | _ => if forallb (is_digit decimal) value
         then Some (decimal_from decimal 0 value)
         else None
  end.

(** [Giveaway.parse_time] *)
Definition parse_time (decimal : N → option Z) (lower : list N → list N)
  (time_str : list N) : option Z :=
  match re_match decimal (lower time_str) with
  | None => None
  | Some (value, unit) =>
      match int_of_digits decimal value with
      | None => None
      | Some value =>
          if (unit =? 115)%N then Some value
          else if (unit =? 109)%N then Some (value * 60)
          else if (unit =? 104)%N then Some (value * 3600)
          else if (unit =? 100)%N then Some (value * 86400)
          else None
      end
  end.

(** The two tables cut down to the ASCII range. *)
Definition ascii_decimal (c : N) : option Z :=
  if ((48 <=? c) && (c <=? 57))%N then Some (Z.of_N c - 48) else None.

Definition ascii_lower (s : list N) : list N := lower_ascii <$> s.

(** The ASCII digits and the Arabic-Indic ones (U+0660 to U+0669). *)
Definition two_scripts (c : N) : option Z :=
  if ((48 <=? c) && (c <=? 57))%N then Some (Z.of_N c - 48)
  else if ((1632 <=? c) && (c <=? 1641))%N then Some (Z.of_N c - 1632)
  else None.

End Text.

(** ** The tick among other commands *)

(** [check_giveaways] above is a tick that runs alone.  The source waits
    inside the loop, in every settlement, and while it waits the commands
    may run.  [env n] is what they make of the dictionary and of the supply
    of random numbers during the [n]-th settlement of the tick.
    [end_giveaway] writes to the dictionary before it first waits and reads
    nothing from it afterwards, so the commands find the dictionary as
    [end_giveaway] leaves it.  A giveaway that is not due is passed without
    waiting.  The trace is that of the tick. *)
Definition commands : Type :=
  nat → gmap Z giveaway * rng → gmap Z giveaway * rng.

Fixpoint check_loop_with (env : commands)
  (n : nat) (w : world) (giveaway_ids : list Z) (r : rng)
  (st : gmap Z giveaway) : result :=
  match giveaway_ids with
  | [] => Result st [] r Returned
  | giveaway_id :: ids =>
      match st !! giveaway_id with
      | None => Result st [] r Raised
      | Some g =>
          if end_time g <=? now w then
            let res := end_giveaway w r st giveaway_id in
            let logged :=
              match res_exit res with
              | Raised => [LogError giveaway_id]
              | Returned => []
              end in
            let after := env n (res_store res, res_rng res) in
            let rest := check_loop_with env (S n) w ids after.2 after.1 in
            Result (res_store rest)
                   (res_trace res ++ logged ++ res_trace rest)
                   (res_rng rest) (res_exit rest)
          else check_loop_with env n w ids r st
      end
  end.

Definition check_giveaways_with (env : commands)
  (w : world) (r : rng) (st : gmap Z giveaway) : result :=
  check_loop_with env 0 w (keys st) r st.

(** Nothing is deleted from [st] to [st'], and no term is changed. *)
Definition store_kept (st st' : gmap Z giveaway) : Prop :=
  ∀ id g, st !! id = Some g → ∃ g', st' !! id = Some g' ∧ same_terms g g'.

(** The commands that run during the tick delete no giveaway. *)
Definition deletes_none (env : commands) : Prop :=
  ∀ n st r, dom st ⊆ dom (env n (st, r)).1.

(** They delete no giveaway and change no term of a giveaway: no [cancel]
    meets a deleted message, and what [create] stores comes under an id of
    its own. *)
Definition keeps_giveaways (env : commands) : Prop :=
  ∀ n st r, store_kept st (env n (st, r)).1.

(** * Properties *)

(** ** Characters *)

Ltac by_char c :=
  destruct c as [[] [] [] [] [] [] [] []]; vm_compute; intuition congruence.

Lemma unit_not_digit u : is_unit u = true → Str.is_digit u = false.
Proof. by_char u. Qed.

Lemma digit_not_space c : Str.is_digit c = true → Str.is_space c = false.
Proof. by_char c. Qed.

Lemma digit_not_mark c :
  Str.is_digit c = true →
  Ascii.eqb c "-" = false ∧ Ascii.eqb c "+" = false ∧ Ascii.eqb c "_" = false.
Proof. by_char c. Qed.

Lemma lower_digit c : Str.is_digit c = true → Str.lower_ascii c = c.
Proof. by_char c. Qed.

Lemma is_unit_cases u :
  is_unit u = true → u = "s"%char ∨ u = "m"%char ∨ u = "h"%char ∨ u = "d"%char.
Proof. by_char u. Qed.

(** ** Strings of digits *)

Lemma lower_app (a b : string) :
  Str.lower (a ++ b)%string = (Str.lower a ++ Str.lower b)%string.
Proof. induction a as [|c a IH]; simpl; [done | by rewrite IH]. Qed.

Lemma lower_digits ds : Str.all_digits ds = true → Str.lower ds = ds.
Proof.
  induction ds as [|c ds IH]; simpl; [done |].
  intros [Hc Hds]%andb_prop. by rewrite lower_digit, IH.
Qed.

Lemma lstrip_digits ds : Str.all_digits ds = true → Str.lstrip ds = ds.
Proof.
  destruct ds as [|c ds]; simpl; [done |].
  intros [Hc _]%andb_prop. by rewrite digit_not_space.
Qed.

Lemma rstrip_digits ds : Str.all_digits ds = true → Str.rstrip ds = ds.
Proof.
  induction ds as [|c ds IH]; simpl; [done |].
  intros [Hc Hds]%andb_prop. rewrite IH by done.
  destruct ds; [by rewrite digit_not_space | done].
Qed.

Lemma int_digits_decimal ds acc :
  ds ≠ "" → Str.all_digits ds = true →
  Str.int_digits acc ds = Some (Str.decimal_from acc ds).
Proof.
  revert acc. induction ds as [|c ds IH]; intros acc Hne; [done |].
  simpl. intros [Hc Hds]%andb_prop. rewrite Hc.
  destruct ds as [|c' ds']; [done |].
  simpl in Hds. apply andb_prop in Hds as [Hc' Hds'].
  destruct (digit_not_mark c' Hc') as (_ & _ & ->).
  apply IH; [done |]. simpl. by rewrite Hc', Hds'.
Qed.

(** [int] on a non-empty string of digits is its decimal value. *)
Lemma py_int_digits ds :
  ds ≠ "" → Str.all_digits ds = true → Str.py_int ds = Some (Str.decimal ds).
Proof.
  intros Hne Hds. unfold Str.py_int.
  rewrite lstrip_digits, rstrip_digits by done.
  destruct ds as [|c ds]; [done |].
  pose proof Hds as Hd. simpl in Hd. apply andb_prop in Hd as [Hc _].
  destruct (digit_not_mark c Hc) as (-> & -> & _).
  by apply int_digits_decimal.
Qed.

(** ** The pattern *)

Example parse_time_30s : parse_time "30s" = Some 30.
Proof. reflexivity. Qed.

Example parse_time_5m : parse_time "5m" = Some 300.
Proof. reflexivity. Qed.

Example parse_time_2H : parse_time "2H" = Some 7200.
Proof. reflexivity. Qed.

Example parse_time_1d : parse_time "1d" = Some 86400.
Proof. reflexivity. Qed.

Example parse_time_rejects :
  parse_time "abc" = None ∧ parse_time "10" = None ∧
  parse_time "-5m" = None ∧ parse_time "10x" = None ∧ parse_time "" = None.
Proof. repeat split. Qed.

Example py_int_forms :
  Str.py_int " 12 " = Some 12 ∧ Str.py_int "-3" = Some (-3) ∧
  Str.py_int "+1_000" = Some 1000 ∧ Str.py_int "1__0" = None ∧
  Str.py_int "3.5" = None ∧ Str.py_int "" = None.
Proof. repeat split. Qed.

(** The groups of a match are a non-empty run of digits and a unit letter,
    and they stand at the start of the string. *)
Lemma re_match_inv s ds u :
  re_match s = Some (ds, u) →
  ∃ rest, s = (ds ++ String u rest)%string ∧ ds ≠ "" ∧
          Str.all_digits ds = true ∧ is_unit u = true.
Proof.
  revert ds u. induction s as [|c t IH]; intros ds u; simpl; [done |].
  destruct (Str.is_digit c) eqn:Hc; [| done].
  destruct (re_match t) as [[ds' u']|] eqn:Ht.
  - intros [= <- <-]. destruct (IH _ _ eq_refl) as (rest & -> & Hne & Hds & Hu).
    exists rest. simpl. by rewrite Hc, Hds.
  - destruct t as [|u' rest]; [done |].
    destruct (is_unit u') eqn:Hu; [| done].
    intros [= <- <-]. exists rest. simpl. by rewrite Hc.
Qed.

Lemma re_match_unit s ds u : re_match s = Some (ds, u) → is_unit u = true.
Proof. intros (? & _ & _ & _ & ?)%re_match_inv. done. Qed.

(** Digits followed by a unit letter match, whatever comes after. *)
Lemma re_match_prefix ds u rest :
  ds ≠ "" → Str.all_digits ds = true → is_unit u = true →
  re_match (ds ++ String u rest)%string = Some (ds, u).
Proof.
  intros Hne Hds Hu. induction ds as [|c ds IH]; [done |].
  simpl in Hds. apply andb_prop in Hds as [Hc Hds].
  simpl. rewrite Hc. destruct ds as [|c' ds'].
  - simpl. by rewrite (unit_not_digit u Hu), Hu.
  - by rewrite IH.
Qed.

(** The conversion of the unit, as one product. *)
Lemma parse_time_unit value u :
  is_unit u = true →
  (if Ascii.eqb u "s" then Some value
   else if Ascii.eqb u "m" then Some (value * 60)
   else if Ascii.eqb u "h" then Some (value * 3600)
   else if Ascii.eqb u "d" then Some (value * 86400)
   else None) = Some (value * unit_seconds u).
Proof.
  intros [-> | [-> | [-> | ->]]]%is_unit_cases; unfold unit_seconds; simpl;
    f_equal; lia.
Qed.

Lemma parse_time_prefix ds u rest :
  ds ≠ "" → Str.all_digits ds = true → is_unit (Str.lower_ascii u) = true →
  parse_time (ds ++ String u rest)%string
  = Some (Str.decimal ds * unit_seconds (Str.lower_ascii u)).
Proof.
  intros Hne Hds Hu. unfold parse_time.
  rewrite lower_app, lower_digits by done. simpl.
  rewrite re_match_prefix, py_int_digits by done.
  by apply parse_time_unit.
Qed.

Lemma lower_digit_inv c : Str.is_digit (Str.lower_ascii c) = true → Str.is_digit c = true.
Proof. by_char c. Qed.

Lemma lower_digits_inv a : Str.all_digits (Str.lower a) = true → Str.all_digits a = true.
Proof.
  induction a as [|c a IH]; simpl; [done |].
  intros [Hc Ha]%andb_prop. by rewrite (lower_digit_inv c Hc), IH.
Qed.

Lemma lower_split s a u b :
  Str.lower s = (a ++ String u b)%string →
  ∃ a' u' b', s = (a' ++ String u' b')%string ∧
              Str.lower a' = a ∧ Str.lower_ascii u' = u ∧ Str.lower b' = b.
Proof.
  revert s. induction a as [|c a IH]; intros [|c' s]; simpl; try done.
  - intros [= <- <-]. by exists "", c', s.
  - intros [= <- (a' & u' & b' & -> & <- & <- & <-)%IH].
    by exists (String c' a'), u', b'.
Qed.

(** A string of the specification's pattern is digits and one unit letter. *)
Lemma spec_pattern_inv s :
  spec_pattern s = true →
  ∃ ds u, s = (ds ++ String u "")%string ∧ ds ≠ "" ∧
          Str.all_digits ds = true ∧ is_unit (Str.lower_ascii u) = true.
Proof.
  induction s as [|c t IH]; [done |].
  cbn [spec_pattern]. intros [Hc Ht]%andb_prop.
  destruct t as [|u t'].
  - done.
  - destruct t' as [|c' t''].
    + exists (String c ""), u. simpl. by rewrite Hc.
    + destruct (IH Ht) as (ds & u' & Heq & Hne & Hds & Hu).
      exists (String c ds), u'. split_and!; [| done | | done].
      * simpl. by rewrite Heq.
      * cbn [Str.all_digits]. by rewrite Hc, Hds.
Qed.

Lemma spec_pattern_intro ds u :
  ds ≠ "" → Str.all_digits ds = true → is_unit (Str.lower_ascii u) = true →
  spec_pattern (ds ++ String u "")%string = true.
Proof.
  intros Hne Hds Hu. induction ds as [|c ds IH]; [done |].
  simpl in Hds. apply andb_prop in Hds as [Hc Hds].
  destruct ds as [|c' ds'].
  - simpl. by rewrite Hc, Hu.
  - specialize (IH ltac:(done) Hds).
    change (spec_pattern (String c (String c' (ds' ++ String u "")%string)) = true).
    change (spec_pattern (String c' (ds' ++ String u "")%string) = true) in IH.
    remember (ds' ++ String u "")%string as t eqn:E.
    destruct t as [|c'' t]; [by destruct ds' |].
    change (Str.is_digit c && spec_pattern (String c' (String c'' t)) = true).
    by rewrite Hc, IH.
Qed.

(** When [parse_time] returns, the string starts with digits and a unit. *)
Lemma parse_time_some_inv s n :
  parse_time s = Some n →
  ∃ ds u rest, s = (ds ++ String u rest)%string ∧ ds ≠ "" ∧
               Str.all_digits ds = true ∧ is_unit (Str.lower_ascii u) = true.
Proof.
  unfold parse_time. destruct (re_match (Str.lower s)) as [[ds u]|] eqn:Hm; [| done].
  intros _. apply re_match_inv in Hm as (rest & Hs & Hne & Hds & Hu).
  apply lower_split in Hs as (a' & u' & b' & -> & <- & <- & <-).
  exists a', u', b'. split_and!; [done | by destruct a' | by apply lower_digits_inv | done].
Qed.

(** *** On any text *)

Lemma text_is_unit_cases c :
  Text.is_unit c = true → c = 115%N ∨ c = 109%N ∨ c = 104%N ∨ c = 100%N.
Proof.
  unfold Text.is_unit. rewrite !orb_true_iff, !N.eqb_eq. tauto.
Qed.

Lemma text_parse_time_unit value u :
  Text.is_unit u = true →
  (if (u =? 115)%N then Some value
   else if (u =? 109)%N then Some (value * 60)
   else if (u =? 104)%N then Some (value * 3600)
   else if (u =? 100)%N then Some (value * 86400)
   else None) = Some (value * Text.unit_seconds u).
Proof.
  intros [-> | [-> | [-> | ->]]]%text_is_unit_cases; unfold Text.unit_seconds;
    simpl; f_equal; lia.
Qed.

Section AnyText.

(** The tables of the interpreter, and the two facts about them that the
    proofs use: the four unit letters are not decimal digits, and
    lower-casing leaves a run of decimal digits at the start of a text as it
    is and turns the ASCII character behind it into its ASCII lower case. *)
Variable decimal : N → option Z.
Variable lower : list N → list N.

Hypothesis unit_not_decimal : ∀ c, Text.is_unit c = true → decimal c = None.

Hypothesis lower_prefix :
  ∀ ds u rest,
    forallb (Text.is_digit decimal) ds = true → (u < 128)%N →
    ∃ rest', lower (ds ++ u :: rest)%list = (ds ++ Text.lower_ascii u :: rest')%list.

Lemma text_re_match_inv s ds u :
  Text.re_match decimal s = Some (ds, u) →
  ∃ rest, s = (ds ++ u :: rest)%list ∧ ds ≠ [] ∧
          forallb (Text.is_digit decimal) ds = true ∧ Text.is_unit u = true.
Proof.
  revert ds u. induction s as [|c t IH]; intros ds u; simpl; [done |].
  destruct (Text.is_digit decimal c) eqn:Hc; [| done].
  destruct (Text.re_match decimal t) as [[ds' u']|] eqn:Ht.
  - intros [= <- <-]. destruct (IH _ _ eq_refl) as (rest & -> & Hne & Hds & Hu).
    exists rest. simpl. by rewrite Hc, Hds.
  - destruct t as [|u' rest]; [done |].
    destruct (Text.is_unit u') eqn:Hu; [| done].
    intros [= <- <-]. exists rest. simpl. by rewrite Hc.
Qed.

Lemma text_re_match_prefix ds u rest :
  ds ≠ [] → forallb (Text.is_digit decimal) ds = true → Text.is_unit u = true →
  Text.re_match decimal (ds ++ u :: rest)%list = Some (ds, u).
Proof.
  intros Hne Hds Hu. induction ds as [|c ds IH]; [done |].
  simpl in Hds. apply andb_prop in Hds as [Hc Hds].
  simpl. rewrite Hc. destruct ds as [|c' ds'].
  - simpl. unfold Text.is_digit at 1. by rewrite (unit_not_decimal u Hu), Hu.
  - by rewrite IH.
Qed.

(** What [parse_time] returns is read off the lower-cased text. *)
Lemma text_parse_time_lowered s ds u rest :
  lower s = (ds ++ u :: rest)%list →
  ds ≠ [] → forallb (Text.is_digit decimal) ds = true → Text.is_unit u = true →
  Text.parse_time decimal lower s
  = Some (Text.decimal_from decimal 0 ds * Text.unit_seconds u).
Proof.
  intros Hs Hne Hds Hu. unfold Text.parse_time.
  rewrite Hs, text_re_match_prefix by done.
  unfold Text.int_of_digits. rewrite Hds.
  destruct ds as [|c ds]; [done |]. by apply text_parse_time_unit.
Qed.

Lemma text_parse_time_some_inv s n :
  Text.parse_time decimal lower s = Some n →
  ∃ ds u rest, lower s = (ds ++ u :: rest)%list ∧ ds ≠ [] ∧
               forallb (Text.is_digit decimal) ds = true ∧
               Text.is_unit u = true.
Proof.
  unfold Text.parse_time.
  destruct (Text.re_match decimal (lower s)) as [[ds u]|] eqn:Hm; [| done].
  intros _. apply text_re_match_inv in Hm as (rest & Hs & Hne & Hds & Hu).
  by exists ds, u, rest.
Qed.

(** C3, as amended.  [parse_time] matches a prefix of the lower-cased text.
    When the text starts with one or more decimal digits and a unit letter
    in either case, whatever follows, the result is the value of the digits
    times 1, 60, 3600 or 86400 seconds; more generally this is so when the
    lower-cased text has such a start.  It raises [ValueError] exactly when
    the lower-cased text has no such start. *)
Theorem parse_time_any_text :
  (∀ ds u rest,
      ds ≠ [] → forallb (Text.is_digit decimal) ds = true →
      (u < 128)%N → Text.is_unit (Text.lower_ascii u) = true →
      Text.parse_time decimal lower (ds ++ u :: rest)%list
      = Some (Text.decimal_from decimal 0 ds
              * Text.unit_seconds (Text.lower_ascii u)))
  ∧ (∀ s ds u rest,
        lower s = (ds ++ u :: rest)%list →
        ds ≠ [] → forallb (Text.is_digit decimal) ds = true →
        Text.is_unit u = true →
        Text.parse_time decimal lower s
        = Some (Text.decimal_from decimal 0 ds * Text.unit_seconds u))
  ∧ (∀ s, Text.parse_time decimal lower s = None ↔
          ¬ ∃ ds u rest, lower s = (ds ++ u :: rest)%list ∧ ds ≠ [] ∧
                         forallb (Text.is_digit decimal) ds = true ∧
                         Text.is_unit u = true).
Proof.
  split_and!.
  - intros ds u rest Hne Hds Hu Hunit.
    destruct (lower_prefix ds u rest Hds Hu) as [rest' Hlow].
    by apply (text_parse_time_lowered _ ds _ rest').
  - apply text_parse_time_lowered.
  - intros s. split.
    + intros Hnone (ds & u & rest & Hs & Hne & Hds & Hu).
      by rewrite (text_parse_time_lowered s ds u rest) in Hnone.
    + intros Hno. destruct (Text.parse_time decimal lower s) as [n|] eqn:Hp;
        [| done].
      destruct Hno. by eapply text_parse_time_some_inv.
Qed.

End AnyText.

Lemma two_scripts_unit c : Text.is_unit c = true → Text.two_scripts c = None.
Proof. by intros [-> | [-> | [-> | ->]]]%text_is_unit_cases. Qed.

Lemma two_scripts_lower c :
  Text.is_digit Text.two_scripts c = true → Text.lower_ascii c = c.
Proof.
  unfold Text.is_digit, Text.two_scripts, Text.lower_ascii.
  destruct (N.leb_spec 48 c), (N.leb_spec c 57), (N.leb_spec 1632 c),
    (N.leb_spec c 1641), (N.leb_spec 65 c), (N.leb_spec c 90);
    simpl; try done; lia.
Qed.

Lemma two_scripts_lower_prefix ds u rest :
  forallb (Text.is_digit Text.two_scripts) ds = true → (u < 128)%N →
  ∃ rest', Text.ascii_lower (ds ++ u :: rest)%list
           = (ds ++ Text.lower_ascii u :: rest')%list.
Proof.
  intros Hds _. exists (Text.ascii_lower rest). unfold Text.ascii_lower.
  rewrite fmap_app, fmap_cons. f_equal.
  induction ds as [|c ds IH]; [done |].
  simpl in Hds. apply andb_prop in Hds as [Hc Hds].
  rewrite fmap_cons, two_scripts_lower, IH by done. done.
Qed.

Lemma parse_time_any_text_witness :
  Text.parse_time Text.two_scripts Text.ascii_lower (Text.of_string "5Minutes")
  = Some (5 * 60)
  ∧ Text.parse_time Text.two_scripts Text.ascii_lower [1635; 115]%N
    = Some (3 * 1).
Proof.
  destruct (parse_time_any_text Text.two_scripts Text.ascii_lower
              two_scripts_unit two_scripts_lower_prefix) as (Hstart & _ & _).
  split.
  - apply (Hstart [53]%N 77%N (Text.of_string "inutes"));
      [discriminate | reflexivity | reflexivity | reflexivity].
  - apply (Hstart [1635]%N 115%N []);
      [discriminate | reflexivity | reflexivity | reflexivity].
Defined.

(** *** The two models of [parse_time] *)

Ltac by_code c :=
  destruct c as [[] [] [] [] [] [] [] []]; reflexivity.

Lemma text_lower_code c :
  Text.lower_ascii (N_of_ascii c) = N_of_ascii (Str.lower_ascii c).
Proof. by_code c. Qed.

Lemma text_digit_code c :
  Text.is_digit Text.ascii_decimal (N_of_ascii c) = Str.is_digit c.
Proof. by_code c. Qed.

Lemma text_unit_code c : Text.is_unit (N_of_ascii c) = is_unit c.
Proof. by_code c. Qed.

Lemma text_unit_seconds_code c :
  Text.unit_seconds (N_of_ascii c) = unit_seconds c.
Proof. by_code c. Qed.

Lemma text_value_code c :
  Str.is_digit c = true →
  default 0 (Text.ascii_decimal (N_of_ascii c)) = Str.digit_val c.
Proof. destruct c as [[] [] [] [] [] [] [] []]; vm_compute; congruence. Qed.

Lemma text_of_string_cons c t :
  Text.of_string (String c t) = N_of_ascii c :: Text.of_string t.
Proof. done. Qed.

Lemma text_of_string_app (a b : string) :
  Text.of_string (a ++ b)%string = (Text.of_string a ++ Text.of_string b)%list.
Proof.
  induction a as [|c a IH]; [done |].
  change (String c a ++ b)%string with (String c (a ++ b)%string).
  rewrite !text_of_string_cons, IH. done.
Qed.

Lemma text_lower_string s :
  Text.ascii_lower (Text.of_string s) = Text.of_string (Str.lower s).
Proof.
  induction s as [|c s IH]; [done |].
  cbn [Str.lower]. rewrite !text_of_string_cons. unfold Text.ascii_lower in *.
  rewrite fmap_cons, IH, text_lower_code. done.
Qed.

Lemma text_digits_string ds :
  forallb (Text.is_digit Text.ascii_decimal) (Text.of_string ds)
  = Str.all_digits ds.
Proof.
  induction ds as [|c ds IH]; [done |].
  rewrite text_of_string_cons. cbn [forallb Str.all_digits].
  by rewrite text_digit_code, IH.
Qed.

Lemma text_decimal_string ds acc :
  Str.all_digits ds = true →
  Text.decimal_from Text.ascii_decimal acc (Text.of_string ds)
  = Str.decimal_from acc ds.
Proof.
  revert acc. induction ds as [|c ds IH]; intros acc; [done |].
  cbn [Str.all_digits]. intros [Hc Hds]%andb_prop.
  rewrite text_of_string_cons. cbn [Text.decimal_from Str.decimal_from].
  rewrite text_value_code by done. by apply IH.
Qed.

Lemma ascii_decimal_unit c : Text.is_unit c = true → Text.ascii_decimal c = None.
Proof. by intros [-> | [-> | [-> | ->]]]%text_is_unit_cases. Qed.

(** On text written with ASCII characters, where the tables are their ASCII
    rows, [parse_time] of the text is [parse_time] of the string. *)
Lemma parse_time_text s :
  Text.parse_time Text.ascii_decimal Text.ascii_lower (Text.of_string s)
  = parse_time s.
Proof.
  destruct (parse_time s) as [n|] eqn:Hp.
  - destruct (parse_time_some_inv s n Hp) as (ds & u & rest & -> & Hne & Hds & Hu).
    rewrite parse_time_prefix in Hp by done. injection Hp as <-.
    rewrite (text_parse_time_lowered Text.ascii_decimal Text.ascii_lower
               ascii_decimal_unit _ (Text.of_string ds)
               (N_of_ascii (Str.lower_ascii u)) (Text.of_string (Str.lower rest))).
    + rewrite text_decimal_string, text_unit_seconds_code by done. done.
    + rewrite text_lower_string, lower_app, lower_digits by done.
      cbn [Str.lower]. by rewrite text_of_string_app, text_of_string_cons.
    + by destruct ds.
    + by rewrite text_digits_string.
    + by rewrite text_unit_code.
  - destruct (Text.parse_time _ _ _) as [n|] eqn:Ht; [| done].
    exfalso. revert Ht. unfold Text.parse_time, parse_time in *.
    rewrite text_lower_string. revert Hp.
    generalize (Str.lower s). clear s. intros s Hp Ht.
    assert (re_match s = None) as Hnone.
    { destruct (re_match s) as [[ds u]|] eqn:Hm; [| done].
      apply re_match_inv in Hm as Hinv.
      destruct Hinv as (rest & -> & Hne & Hds & Hu).
      rewrite py_int_digits, parse_time_unit in Hp by done. done. }
    clear Hp. revert Ht.
    assert (Text.re_match Text.ascii_decimal (Text.of_string s) = None) as ->;
      [| done].
    induction s as [|c t IH]; [done |].
    rewrite text_of_string_cons. cbn [Text.re_match re_match] in *.
    rewrite text_digit_code. destruct (Str.is_digit c); [| done].
    destruct (re_match t) as [[ds u]|]; [done |].
    rewrite IH by done. destruct t as [|u t']; [done |].
    rewrite text_of_string_cons, text_unit_code.
    by destruct (is_unit u).
Qed.

(** C3, as stated, fails: ["10sx"] is not of the pattern [^\d+[smhd]$], yet
    [parse_time] returns 10 for it. *)
Lemma parse_time_trailing_text :
  spec_pattern "10sx" = false ∧ parse_time "10sx" = Some 10.
Proof. split; reflexivity. Qed.

(** ** [random.sample] *)

Section Sample.
Context {A : Type}.
Implicit Types (pool : list A) (r : rng).

Lemma randbelow_lt n r : (0 < n)%nat → ((randbelow n r).1 < n)%nat.
Proof. intros Hn. simpl. apply Nat.mod_upper_bound. lia. Qed.

(** One draw: what is taken and what stays make up the pool. *)
Lemma draw_permutation pool j x y :
  pool !! j = Some x → last pool = Some y →
  x :: take (length pool - 1) (<[j := y]> pool) ≡ₚ pool.
Proof.
  intros Hj [init ->]%last_Some.
  rewrite length_app. simpl.
  replace (length init + 1 - 1)%nat with (length init) by lia.
  destruct (decide (j < length init)%nat) as [Hlt | Hge].
  - rewrite lookup_app_l in Hj by done.
    rewrite insert_app_l, take_app_length' by (by rewrite ?length_insert).
    rewrite insert_take_drop by done.
    rewrite <- (take_drop_middle init j x Hj) at 3.
    rewrite <- !app_assoc. simpl.
    rewrite <- (Permutation_middle _ (_ ++ [y]) x). do 2 f_equiv.
    by rewrite <- Permutation_cons_append.
  - apply lookup_lt_Some in Hj as Hlen. rewrite length_app in Hlen. simpl in Hlen.
    assert (j = length init) as -> by lia.
    rewrite list_lookup_middle in Hj by done. injection Hj as <-.
    rewrite take_insert_ge, take_app_length by lia.
    by rewrite <- Permutation_cons_append.
Qed.

(** The sample is taken out of the pool: with multiplicity, it is part
    of it. *)
Lemma sample_submseteq pool k r : (sample pool k r).1 ⊆+ pool.
Proof.
  revert pool r. induction k as [|k IH]; intros pool r; simpl.
  - apply submseteq_nil_l.
  - destruct (pool !! _) as [x|] eqn:Hj; [| apply submseteq_nil_l].
    destruct (last pool) as [y|] eqn:Hy; [| apply submseteq_nil_l].
    destruct (sample _ k _) as [rest r2] eqn:Hs. simpl.
    rewrite <- (draw_permutation pool _ x y Hj Hy).
    apply submseteq_skip.
    change rest with (rest, r2).1. rewrite <- Hs. apply IH.
Qed.

Lemma sample_length pool k r :
  (k ≤ length pool)%nat → length (sample pool k r).1 = k.
Proof.
  revert pool r. induction k as [|k IH]; intros pool r Hk; simpl; [done |].
  assert (0 < length pool)%nat as Hpos by lia.
  pose proof (randbelow_lt (length pool) r Hpos) as Hj. simpl in Hj.
  destruct (lookup_lt_is_Some_2 pool _ Hj) as [x ->].
  destruct (proj2 (last_is_Some pool)) as [y ->];
    [intros ->; simpl in Hpos; lia |].
  destruct (sample _ k _) as [rest r2] eqn:Hs. simpl. f_equal.
  change rest with (rest, r2).1. rewrite <- Hs. apply IH.
  rewrite length_take, length_insert. lia.
Qed.

Lemma sample_NoDup pool k r : NoDup pool → NoDup (sample pool k r).1.
Proof.
  intros Hnd. destruct (submseteq_Permutation _ _ (sample_submseteq pool k r)) as [rest Hp].
  rewrite Hp in Hnd. by apply NoDup_app in Hnd as [? _].
Qed.

Lemma sample_elem_of pool k r x : x ∈ (sample pool k r).1 → x ∈ pool.
Proof. intros Hx. eapply elem_of_submseteq; [done | apply sample_submseteq]. Qed.

End Sample.

(** ** Drawing the winners *)

Lemma select_winners_length count us r :
  length (select_winners count us r).1
  = Z.to_nat (Z.min count (Z.of_nat (length us))).
Proof.
  unfold select_winners. destruct (0 <? _) eqn:Hpos.
  - apply sample_length. lia.
  - apply Z.ltb_ge in Hpos. simpl. lia.
Qed.

Lemma select_winners_submseteq count us r : (select_winners count us r).1 ⊆+ us.
Proof.
  unfold select_winners. destruct (0 <? _).
  - apply sample_submseteq.
  - apply submseteq_nil_l.
Qed.

Lemma draw_winners_length g m r :
  length (draw_winners g m r).1
  = Z.to_nat (Z.min (winner_count g) (Z.of_nat (length (message_entrants m)))).
Proof.
  unfold draw_winners, message_entrants. destruct (find_reaction m).
  - apply select_winners_length.
  - simpl. lia.
Qed.

Lemma draw_winners_submseteq g m r : (draw_winners g m r).1 ⊆+ message_entrants m.
Proof.
  unfold draw_winners, message_entrants. destruct (find_reaction m).
  - apply select_winners_submseteq.
  - done.
Qed.

Lemma submseteq_NoDup {A} (l k : list A) : l ⊆+ k → NoDup k → NoDup l.
Proof.
  intros [rest Hp]%submseteq_Permutation Hnd.
  rewrite Hp in Hnd. by apply NoDup_app in Hnd as [? _].
Qed.

(** ** [end_giveaway] *)

(** Whatever the platform answers, [end_giveaway] on a stored giveaway
    leaves the dictionary with that giveaway marked as ended, and nothing
    else changed: the flag is written before the channel is looked up. *)
Lemma end_giveaway_store w r st giveaway_id g :
  st !! giveaway_id = Some g →
  res_store (end_giveaway w r st giveaway_id)
  = <[giveaway_id := set_ended true g]> st.
Proof.
  intros Hg. unfold end_giveaway. rewrite Hg.
  repeat (case_match; simpl; try done).
Qed.

Lemma end_giveaway_missing w r st giveaway_id :
  st !! giveaway_id = None →
  end_giveaway w r st giveaway_id = Result st [] r Returned.
Proof. intros Hg. unfold end_giveaway. by rewrite Hg. Qed.

(** With the channel and the message at hand, the trace of [end_giveaway]
    holds the drawn winners and no others. *)
Lemma end_giveaway_fetched w r st giveaway_id g ch m :
  st !! giveaway_id = Some g →
  get_channel w (channel_id g) = Some ch →
  fetch_message ch (message_id g) = ApiOk m →
  let res := end_giveaway w r st giveaway_id in
  let winners := (draw_winners g m r).1 in
  (res_exit res = Returned →
   res_trace res = [EditEnded giveaway_id winners; Announce giveaway_id winners])
  ∧ (∀ ws, Announce giveaway_id ws ∈ res_trace res → ws = winners).
Proof.
  intros Hg Hch Hm. unfold end_giveaway. rewrite Hg. simpl. rewrite Hch, Hm.
  change (draw_winners (set_ended true g) m r) with (draw_winners g m r).
  destruct (draw_winners g m r) as [winners r'].
  repeat (case_match; simpl; try done); (split; [done |]); intros ws Hin;
    repeat (apply elem_of_cons in Hin as [Hin | Hin]; [congruence |]);
    by apply elem_of_nil in Hin.
Qed.

(** When every call succeeds, [end_giveaway] edits the message and
    announces the winners it drew. *)
Lemma end_giveaway_succeeds w r st id g ch m :
  st !! id = Some g →
  get_channel w (channel_id g) = Some ch →
  fetch_message ch (message_id g) = ApiOk m →
  fetch_user w (host_id g) = ApiOk () →
  edit m = ApiOk () →
  send ch = ApiOk () →
  end_giveaway w r st id
  = Result (<[id := set_ended true g]> st)
           [EditEnded id (draw_winners g m r).1;
            Announce id (draw_winners g m r).1]
           (draw_winners g m r).2 Returned.
Proof.
  intros Hg Hch Hm Hu He Hs. unfold end_giveaway. rewrite Hg. simpl.
  rewrite Hch, Hm.
  change (draw_winners (set_ended true g) m r) with (draw_winners g m r).
  destruct (draw_winners g m r) as [winners r']. by rewrite Hu, He, Hs.
Qed.



(** ** [check_giveaways] *)

(** The loop calls [end_giveaway] for every stored giveaway whose end time
    has passed.  It reads ['end_time'] only: neither ['ended'] nor
    ['cancelled'] keeps a giveaway out. *)
Lemma check_loop_due w giveaway_id ids r st g :
  st !! giveaway_id = Some g →
  end_time g ≤ now w →
  let res := end_giveaway w r st giveaway_id in
  ∃ logged,
    res_trace (check_loop w (giveaway_id :: ids) r st)
    = (res_trace res ++ logged
       ++ res_trace (check_loop w ids (res_rng res) (res_store res)))%list
    ∧ (res_exit res = Returned → logged = []).
Proof.
  intros Hg Hdue. simpl. rewrite Hg.
  destruct (Z.leb_spec (end_time g) (now w)) as [_ | ?]; [| lia].
  simpl. eexists. split; [done |]. by intros ->.
Qed.

Lemma check_loop_not_due w giveaway_id ids r st g :
  st !! giveaway_id = Some g →
  now w < end_time g →
  check_loop w (giveaway_id :: ids) r st = check_loop w ids r st.
Proof.
  intros Hg Hlate. simpl. rewrite Hg.
  destruct (Z.leb_spec (end_time g) (now w)) as [? | _]; [lia | done].
Qed.

(** C1, where the code departs from it.  A giveaway that was cancelled, or
    that has ended, stays in the dictionary; once its end time has passed,
    the next tick settles it (again): it draws winners, rewrites the message
    and announces them. *)
Lemma check_giveaways_settles_again :
  state_of Demo.called_off = Cancelled
  ∧ state_of Demo.finished = Ended
  ∧ res_trace (check_giveaways Demo.online Demo.zeros {[7 := Demo.called_off]})
    = [EditEnded 7 [Demo.alice]; Announce 7 [Demo.alice]]
  ∧ res_trace (check_giveaways Demo.online Demo.ones {[7 := Demo.finished]})
    = [EditEnded 7 [Demo.bob]; Announce 7 [Demo.bob]].
Proof. split_and!; reflexivity. Qed.

(** C2, where the code departs from it.  [end_giveaway] writes
    ['ended'] = [True] before it looks the channel up, so a settlement that
    stops for want of the channel, or of the message, leaves the giveaway
    ended, not active: [list] no longer shows it and [cancel] refuses it. *)
Lemma end_giveaway_abort_marks_ended :
  state_of Demo.running = Active
  ∧ end_giveaway Demo.no_channel Demo.zeros {[7 := Demo.running]} 7
    = Result {[7 := Demo.finished]} [LogError 7] Demo.zeros Returned
  ∧ end_giveaway Demo.no_message Demo.zeros {[7 := Demo.running]} 7
    = Result {[7 := Demo.finished]} [LogError 7] Demo.zeros Returned
  ∧ state_of Demo.finished = Ended
  ∧ list_giveaways {[7 := Demo.finished]} = NoActiveGiveaways
  ∧ res_trace (cancel_giveaway Demo.online Demo.zeros {[7 := Demo.finished]} 7)
    = [Reply AlreadyEnded].
Proof. split_and!; reflexivity. Qed.

(** ** [reroll_giveaway] *)

Lemma state_of_active g : state_of g = Active ↔ ended g = false.
Proof. unfold state_of. destruct (ended g), (cancelled g); naive_solver. Qed.

(** No branch of [reroll_giveaway] writes to the dictionary. *)
Lemma reroll_giveaway_store w r st id winners_str :
  res_store (reroll_giveaway w r st id winners_str) = st.
Proof.
  unfold reroll_giveaway.
  repeat (case_match; simpl; try done).
Qed.

(** New winners are sent only for a stored giveaway whose ['ended'] is set. *)
Lemma reroll_giveaway_new_winners w r st id winners_str ws :
  Reply (NewWinners ws) ∈ res_trace (reroll_giveaway w r st id winners_str) →
  ∃ g, st !! id = Some g ∧ ended g = true.
Proof.
  unfold reroll_giveaway. destruct (st !! id) as [g|]; simpl.
  - destruct (ended g) eqn:He; simpl; [by exists g |].
    intros [[=] | []%elem_of_nil]%elem_of_cons.
  - intros [[=] | []%elem_of_nil]%elem_of_cons.
Qed.

(** C5, as stated, fails.  Two settlements of the same giveaway that draw
    different winners leave the same dictionary, and a reroll that draws new
    winners leaves the dictionary as it was: no field of the stored giveaway
    holds the winners. *)
Lemma winners_leave_no_trace_in_store :
  res_trace (end_giveaway Demo.online Demo.zeros {[7 := Demo.running]} 7)
  = [EditEnded 7 [Demo.alice]; Announce 7 [Demo.alice]]
  ∧ res_trace (end_giveaway Demo.online Demo.ones {[7 := Demo.running]} 7)
    = [EditEnded 7 [Demo.bob]; Announce 7 [Demo.bob]]
  ∧ res_store (end_giveaway Demo.online Demo.zeros {[7 := Demo.running]} 7)
    = res_store (end_giveaway Demo.online Demo.ones {[7 := Demo.running]} 7)
  ∧ res_trace (reroll_giveaway Demo.online Demo.ones {[7 := Demo.finished]} 7 None)
    = [Reply (NewWinners [Demo.bob])]
  ∧ res_store (reroll_giveaway Demo.online Demo.ones {[7 := Demo.finished]} 7 None)
    = {[7 := Demo.finished]}.
Proof. split_and!; reflexivity. Qed.

(** C5, as amended.  The winners are sent out, not stored.  What
    [end_giveaway] leaves in the dictionary does not depend on the draw: for
    a stored giveaway it is the dictionary with that giveaway marked as
    ended.  [reroll_giveaway] leaves the dictionary as it found it. *)
Theorem winners_not_stored w r r' st id winners_str :
  res_store (end_giveaway w r st id) = res_store (end_giveaway w r' st id)
  ∧ (∀ g, st !! id = Some g →
          res_store (end_giveaway w r st id) = <[id := set_ended true g]> st)
  ∧ (st !! id = None → res_store (end_giveaway w r st id) = st)
  ∧ res_store (reroll_giveaway w r st id winners_str) = st.
Proof.
  split_and!.
  - destruct (st !! id) as [g|] eqn:Hg.
    + by rewrite !(end_giveaway_store _ _ _ _ g).
    + by rewrite !end_giveaway_missing.
  - intros g Hg. by apply end_giveaway_store.
  - intros Hg. by rewrite end_giveaway_missing.
  - apply reroll_giveaway_store.
Qed.

Lemma winners_not_stored_witness :
  res_store (end_giveaway Demo.online Demo.zeros {[7 := Demo.running]} 7)
  = <[7 := set_ended true Demo.running]> {[7 := Demo.running]}
  ∧ res_store (end_giveaway Demo.online Demo.zeros {[7 := Demo.running]} 8)
    = {[7 := Demo.running]}.
Proof.
  destruct (winners_not_stored Demo.online Demo.zeros Demo.ones
              {[7 := Demo.running]} 7 None) as (_ & Hmark & _ & _).
  destruct (winners_not_stored Demo.online Demo.zeros Demo.ones
              {[7 := Demo.running]} 8 None) as (_ & _ & Hmiss & _).
  split; [apply Hmark | apply Hmiss]; reflexivity.
Defined.

(** C7, as stated, fails: a cancelled giveaway is rerolled like an ended
    one. *)
Lemma reroll_giveaway_accepts_cancelled :
  state_of Demo.called_off = Cancelled
  ∧ reroll_giveaway Demo.online Demo.zeros {[7 := Demo.called_off]} 7 None
    = Result {[7 := Demo.called_off]} [Reply (NewWinners [Demo.alice])]
             (fun i => Demo.zeros (S i)) Returned.
Proof. split; reflexivity. Qed.

(** C7, as amended.  [reroll_giveaway] requires ['ended'] to be set, which
    holds in the states [Ended] and [Cancelled] alike: on an active giveaway
    it replies that the giveaway has not ended yet and draws nothing, and
    new winners are sent only for a stored giveaway that is ended or
    cancelled.  With or without a winner count of its own, a reroll leaves
    the dictionary unchanged, so the stored state and the stored winner
    count stay what they were. *)
Theorem reroll_giveaway_frame w r st id winners_str :
  let res := reroll_giveaway w r st id winners_str in
  (∀ g, st !! id = Some g → state_of g = Active →
        res = Result st [Reply NotEndedYet] r Returned)
  ∧ (∀ ws, Reply (NewWinners ws) ∈ res_trace res →
           ∃ g, st !! id = Some g ∧
                (state_of g = Ended ∨ state_of g = Cancelled))
  ∧ res_store res = st
  ∧ (∀ g, st !! id = Some g →
          ∃ g', res_store res !! id = Some g' ∧
                state_of g' = state_of g ∧ winner_count g' = winner_count g).
Proof.
  intros res. split_and!.
  - intros g Hg Hact%state_of_active. unfold res, reroll_giveaway.
    by rewrite Hg, Hact.
  - intros ws (g & Hg & He)%reroll_giveaway_new_winners.
    exists g. split; [done |]. unfold state_of. rewrite He.
    destruct (cancelled g); auto.
  - apply reroll_giveaway_store.
  - intros g Hg. exists g. unfold res. by rewrite reroll_giveaway_store.
Qed.

Lemma reroll_giveaway_frame_witness :
  reroll_giveaway Demo.online Demo.zeros {[7 := Demo.running]} 7 (Some "2")
  = Result {[7 := Demo.running]} [Reply NotEndedYet] Demo.zeros Returned
  ∧ ∃ g', res_store (reroll_giveaway Demo.online Demo.zeros {[7 := Demo.finished]}
                       7 (Some "2")) !! 7 = Some g' ∧
          state_of g' = state_of Demo.finished ∧
          winner_count g' = winner_count Demo.finished.
Proof.
  destruct (reroll_giveaway_frame Demo.online Demo.zeros {[7 := Demo.running]} 7
              (Some "2")) as (Hactive & _).
  destruct (reroll_giveaway_frame Demo.online Demo.zeros {[7 := Demo.finished]} 7
              (Some "2")) as (_ & _ & _ & Hkeep).
  split; [apply (Hactive Demo.running) | apply (Hkeep Demo.finished)];
    reflexivity.
Defined.

(** ** [list_giveaways] *)

Lemma listed_elem_of st id g :
  (id, g) ∈ listed st ↔ st !! id = Some g ∧ ended g = false.
Proof.
  unfold listed, list_giveaways. case_decide as Hempty.
  - split; [by intros ?%elem_of_nil |].
    intros [Hg He].
    assert (filter (fun kv => ended kv.2 = false) st !! id = Some g) as Hin
      by (by apply map_lookup_filter_Some).
    by rewrite Hempty in Hin.
  - rewrite elem_of_map_to_list. by rewrite map_lookup_filter_Some.
Qed.

(** C8.  Whatever the dictionary holds, [list_giveaways] shows exactly the
    stored giveaways whose ['ended'] is false: every giveaway it shows is
    active, none is ended or cancelled. *)
Theorem list_giveaways_only_active st :
  (∀ id g, (id, g) ∈ listed st ↔ st !! id = Some g ∧ state_of g = Active)
  ∧ (∀ id g, (id, g) ∈ listed st →
             state_of g ≠ Ended ∧ state_of g ≠ Cancelled)
  ∧ (list_giveaways st = ActiveList (listed st) ∧ listed st ≠ []
     ∨ list_giveaways st = NoActiveGiveaways ∧ listed st = []).
Proof.
  split_and!.
  - intros id g. by rewrite listed_elem_of, state_of_active.
  - intros id g [_ He]%listed_elem_of. unfold state_of. by rewrite He.
  - unfold listed, list_giveaways. case_decide as Hempty; [by right | left].
    split; [done |]. intros Hnil. apply Hempty.
    by apply map_to_list_empty_iff.
Qed.

Lemma list_giveaways_only_active_witness :
  (7, Demo.running) ∈ listed {[7 := Demo.running; 8 := Demo.called_off]}
  ∧ state_of Demo.running ≠ Ended ∧ state_of Demo.running ≠ Cancelled.
Proof.
  destruct (list_giveaways_only_active
              {[7 := Demo.running; 8 := Demo.called_off]}) as (Hiff & Hnot & _).
  assert ((7, Demo.running) ∈ listed {[7 := Demo.running; 8 := Demo.called_off]})
    as Hin by (apply Hiff; split; reflexivity).
  split; [done | by apply (Hnot 7)].
Defined.

(** ** [cancel_giveaway] *)

(** C9.  On a stored, active giveaway [cancel_giveaway] writes to the
    dictionary only once the message has been fetched and edited.  Without
    the channel the dictionary stays as it is, the giveaway still active.
    With the channel but without the message the giveaway is deleted, not
    marked.  When the fetch, the host lookup and the edit all succeed it is
    marked as ended and cancelled.  Nothing else can happen to the
    dictionary, and the mark implies a successful fetch and edit. *)
Theorem cancel_giveaway_mutation w r st id g :
  st !! id = Some g →
  state_of g = Active →
  let res := cancel_giveaway w r st id in
  let marked := set_cancelled true (set_ended true g) in
  (get_channel w (channel_id g) = None →
   res = Result st [Reply ChannelNotFound] r Returned)
  ∧ (∀ ch, get_channel w (channel_id g) = Some ch →
           fetch_message ch (message_id g) = ApiNotFound →
           res_store res = delete id st ∧ res_store res !! id = None)
  ∧ (∀ ch m, get_channel w (channel_id g) = Some ch →
             fetch_message ch (message_id g) = ApiOk m →
             fetch_user w (host_id g) = ApiOk () →
             edit m = ApiOk () →
             res_store res = <[id := marked]> st
             ∧ ended marked = true ∧ cancelled marked = true
             ∧ state_of marked = Cancelled)
  ∧ (res_store res = st
     ∨ res_store res = delete id st
     ∨ res_store res = <[id := marked]> st
       ∧ ∃ ch m, get_channel w (channel_id g) = Some ch
                 ∧ fetch_message ch (message_id g) = ApiOk m
                 ∧ edit m = ApiOk ()).
Proof.
  intros Hg Hact%state_of_active res marked. unfold res, cancel_giveaway.
  rewrite Hg, Hact. split_and!.
  - by intros ->.
  - intros ch -> ->. simpl. split; [done | apply lookup_delete_eq].
  - intros ch m -> -> -> ->. done.
  - destruct (get_channel w (channel_id g)) as [ch|] eqn:Hch; [| by left].
    destruct (fetch_message ch (message_id g)) as [m | |] eqn:Hm;
      [| by right; left | by left].
    destruct (fetch_user w (host_id g)) as [[] | |];
      [| by right; left | by left].
    destruct (edit m) as [[] | |] eqn:He; [| by right; left | by left].
    right; right. split; [done |]. by exists ch, m.
Qed.

Lemma cancel_giveaway_mutation_witness :
  cancel_giveaway Demo.no_channel Demo.zeros {[7 := Demo.running]} 7
  = Result {[7 := Demo.running]} [Reply ChannelNotFound] Demo.zeros Returned
  ∧ res_store (cancel_giveaway Demo.no_message Demo.zeros {[7 := Demo.running]} 7)
      !! 7 = None
  ∧ res_store (cancel_giveaway Demo.online Demo.zeros {[7 := Demo.running]} 7)
    = <[7 := Demo.called_off]> {[7 := Demo.running]}.
Proof.
  assert (({[7 := Demo.running]} : gmap Z giveaway) !! 7 = Some Demo.running)
    as Hstored by reflexivity.
  assert (state_of Demo.running = Active) as Hactive by reflexivity.
  destruct (cancel_giveaway_mutation Demo.no_channel Demo.zeros
              {[7 := Demo.running]} 7 Demo.running Hstored Hactive)
    as (Hnone & _).
  destruct (cancel_giveaway_mutation Demo.no_message Demo.zeros
              {[7 := Demo.running]} 7 Demo.running Hstored Hactive)
    as (_ & Hgone & _).
  destruct (cancel_giveaway_mutation Demo.online Demo.zeros
              {[7 := Demo.running]} 7 Demo.running Hstored Hactive)
    as (_ & _ & Hok & _).
  split_and!.
  - by apply Hnone.
  - by eapply Hgone.
  - by eapply Hok.
Defined.

(** ** The key of a stored giveaway *)

Lemma store_consistent_empty : store_consistent ∅.
Proof. apply map_Forall_empty. Qed.

Lemma store_consistent_insert st id g :
  message_id g = id → store_consistent st → store_consistent (<[id := g]> st).
Proof. intros Hid Hst. by apply map_Forall_insert_2. Qed.

Lemma store_consistent_delete st id :
  store_consistent st → store_consistent (delete id st).
Proof. apply map_Forall_delete. Qed.

Lemma store_consistent_lookup st id g :
  store_consistent st → st !! id = Some g → message_id g = id.
Proof. intros Hst Hg. by apply (Hst id g). Qed.

Lemma end_giveaway_consistent w r st id :
  store_consistent st → store_consistent (res_store (end_giveaway w r st id)).
Proof.
  intros Hst. destruct (st !! id) as [g|] eqn:Hg.
  - rewrite (end_giveaway_store _ _ _ _ g) by done.
    apply store_consistent_insert; [| done].
    simpl. by eapply store_consistent_lookup.
  - by rewrite end_giveaway_missing.
Qed.

Lemma end_giveaway_command_store w r st id :
  res_store (end_giveaway_command w r st id) = res_store (end_giveaway w r st id).
Proof.
  unfold end_giveaway_command. destruct (st !! id) eqn:Hg.
  - by destruct (res_exit _).
  - by rewrite end_giveaway_missing.
Qed.

Lemma check_loop_consistent w ids r st :
  store_consistent st → store_consistent (res_store (check_loop w ids r st)).
Proof.
  revert r st. induction ids as [|id ids IH]; intros r st Hst; simpl; [done |].
  destruct (st !! id) as [g|]; [| done].
  destruct (end_time g <=? now w); simpl.
  - apply IH. by apply end_giveaway_consistent.
  - by apply IH.
Qed.

Lemma create_giveaway_consistent w ctx r st time_str winners_str prize :
  store_consistent st →
  store_consistent (res_store (create_giveaway w ctx r st time_str winners_str prize)).
Proof.
  intros Hst. unfold create_giveaway.
  repeat (case_match; simpl; try done).
  by apply store_consistent_insert.
Qed.

Lemma cancel_giveaway_consistent w r st id :
  store_consistent st → store_consistent (res_store (cancel_giveaway w r st id)).
Proof.
  intros Hst. unfold cancel_giveaway, cancel_not_found.
  destruct (st !! id) as [g|] eqn:Hg; [| done].
  repeat (case_match; simpl; try done);
    try (by apply store_consistent_delete).
  apply store_consistent_insert; [| done].
  simpl. by eapply store_consistent_lookup.
Qed.

(** C10.  If every stored giveaway records as its ['message_id'] the key it
    is stored under, the same holds after [create], [end] (the command and
    the settlement itself), [reroll], [cancel] (its deletion included) and
    after a tick, whatever the platform answers. *)
Theorem store_consistent_preserved w ctx r st id ids time_str winners_str prize count :
  store_consistent st →
  store_consistent (res_store (create_giveaway w ctx r st time_str winners_str prize))
  ∧ store_consistent (res_store (end_giveaway w r st id))
  ∧ store_consistent (res_store (end_giveaway_command w r st id))
  ∧ store_consistent (res_store (reroll_giveaway w r st id count))
  ∧ store_consistent (res_store (cancel_giveaway w r st id))
  ∧ store_consistent (delete id st)
  ∧ store_consistent (res_store (check_loop w ids r st))
  ∧ store_consistent (res_store (check_giveaways w r st)).
Proof.
  intros Hst. split_and!.
  - by apply create_giveaway_consistent.
  - by apply end_giveaway_consistent.
  - rewrite end_giveaway_command_store. by apply end_giveaway_consistent.
  - by rewrite reroll_giveaway_store.
  - by apply cancel_giveaway_consistent.
  - by apply store_consistent_delete.
  - by apply check_loop_consistent.
  - by apply check_loop_consistent.
Qed.

Lemma store_consistent_preserved_witness :
  store_consistent
    (res_store (create_giveaway Demo.online Demo.ctx Demo.zeros ∅ "10m" "3" "Nitro"))
  ∧ store_consistent
      (res_store (check_giveaways Demo.online Demo.zeros {[7 := Demo.running]})).
Proof.
  split.
  - apply (store_consistent_preserved Demo.online Demo.ctx Demo.zeros ∅ 7 [7]
             "10m" "3" "Nitro" None store_consistent_empty).
  - apply (store_consistent_preserved Demo.online Demo.ctx Demo.zeros
             {[7 := Demo.running]} 7 [7] "10m" "3" "Nitro" None).
    apply map_Forall_singleton. reflexivity.
Defined.

(** ** [create_giveaway] *)

(** The dictionary changes only when the giveaway is created. *)
Lemma create_giveaway_store w ctx r st time_str winners_str prize :
  let res := create_giveaway w ctx r st time_str winners_str prize in
  res_store res = st
  ∨ res_trace res = [SendGiveaway (sent_id ctx);
                     Reply (GiveawayCreated (sent_id ctx))].
Proof.
  unfold create_giveaway.
  repeat (case_match; simpl; auto).
Qed.

(** C6.  [create] with a time that is not positive, or a winner count
    outside 1..20 (an unreadable time or count included), replies with a
    refusal and leaves the dictionary as it is, so its size is unchanged.
    [create] with a positive time and a count within 1..20, when the end
    time is one a [datetime] can hold and the reaction is added, stores
    under the id of the giveaway message an active giveaway that ends
    [seconds] after the clock reading, and confirms it.  Conversely, when
    the creation is confirmed, the time was positive, the count within
    1..20, and that giveaway has been stored. *)
Theorem create_giveaway_validates w ctx r st time_str winners_str prize :
  let res := create_giveaway w ctx r st time_str winners_str prize in
  (parse_time time_str = None
   ∨ (∃ seconds, parse_time time_str = Some seconds ∧ seconds ≤ 0)
   ∨ Str.py_int winners_str = None
   ∨ (∃ winners, Str.py_int winners_str = Some winners ∧
                 (winners < 1 ∨ 20 < winners)) →
   res_store res = st ∧ size (res_store res) = size st ∧
   res_exit res = Returned ∧
   ∃ e, res_trace res = [Reply e] ∧ invalid_argument e = true)
  ∧ (∀ seconds winners,
       parse_time time_str = Some seconds → 0 < seconds →
       Str.py_int winners_str = Some winners → 1 ≤ winners ≤ 20 →
       now w + seconds < datetime_end →
       add_reaction ctx = ApiOk () →
       ∃ created,
         res = Result (<[sent_id ctx := created]> st)
                      [SendGiveaway (sent_id ctx);
                       Reply (GiveawayCreated (sent_id ctx))] r Returned
         ∧ created = Giveaway (ctx_channel ctx) (sent_id ctx) (ctx_author ctx)
                              prize winners (now w + seconds) false false
         ∧ res_store res !! sent_id ctx = Some created
         ∧ state_of created = Active
         ∧ end_time created = now w + seconds)
  ∧ (∀ id, Reply (GiveawayCreated id) ∈ res_trace res →
           ∃ seconds winners created,
             parse_time time_str = Some seconds ∧ 0 < seconds ∧
             Str.py_int winners_str = Some winners ∧ 1 ≤ winners ≤ 20 ∧
             id = sent_id ctx ∧
             created = Giveaway (ctx_channel ctx) id (ctx_author ctx) prize
                                winners (now w + seconds) false false ∧
             res_store res = <[id := created]> st ∧
             state_of created = Active ∧
             end_time created = now w + seconds)
  ∧ (res_store res = st
     ∨ res_trace res = [SendGiveaway (sent_id ctx);
                        Reply (GiveawayCreated (sent_id ctx))]).
Proof.
  intros res. split_and!.
  - unfold res, create_giveaway.
    intros [Ht | [(seconds & Ht & Hs) | [Hw | (winners & Hw & Hrange)]]].
    + rewrite Ht. simpl. by eauto 10.
    + rewrite Ht. destruct (Z.leb_spec seconds 0) as [_ | ?]; [| lia].
      simpl. by eauto 10.
    + destruct (parse_time time_str) as [seconds|]; [| simpl; by eauto 10].
      destruct (seconds <=? 0); [simpl; by eauto 10 |].
      rewrite Hw. simpl. by eauto 10.
    + destruct (parse_time time_str) as [seconds|]; [| simpl; by eauto 10].
      destruct (seconds <=? 0); [simpl; by eauto 10 |].
      rewrite Hw. destruct (Z.leb_spec winners 0) as [_ | ?];
        [simpl; by eauto 10 |].
      destruct (Z.ltb_spec 20 winners) as [_ | ?]; [| lia].
      simpl. by eauto 10.
  - intros seconds winners Ht Hs Hw [Hlo Hhi] Hend Hadd.
    eexists. split; [| split_and!; [reflexivity | | done | done]].
    + unfold res, create_giveaway. rewrite Ht, Hw, Hadd. unfold datetime_add.
      destruct (Z.leb_spec seconds 0) as [? | _]; [lia |].
      destruct (Z.leb_spec winners 0) as [? | _]; [lia |].
      destruct (Z.ltb_spec 20 winners) as [? | _]; [lia |].
      destruct (Z.ltb_spec (now w + seconds) datetime_end) as [_ | ?]; [| lia].
      reflexivity.
    + unfold res, create_giveaway. rewrite Ht, Hw, Hadd. unfold datetime_add.
      destruct (Z.leb_spec seconds 0) as [? | _]; [lia |].
      destruct (Z.leb_spec winners 0) as [? | _]; [lia |].
      destruct (Z.ltb_spec 20 winners) as [? | _]; [lia |].
      destruct (Z.ltb_spec (now w + seconds) datetime_end) as [_ | ?]; [| lia].
      simpl. apply lookup_insert_eq.
  - intros id. unfold res, create_giveaway.
    destruct (parse_time time_str) as [seconds|]; simpl;
      [| by intros [[=] | []%elem_of_nil]%elem_of_cons].
    destruct (Z.leb_spec seconds 0) as [? | Hs]; simpl;
      [by intros [[=] | []%elem_of_nil]%elem_of_cons |].
    destruct (Str.py_int winners_str) as [winners|]; simpl;
      [| by intros [[=] | []%elem_of_nil]%elem_of_cons].
    destruct (Z.leb_spec winners 0) as [? | Hlo]; simpl;
      [by intros [[=] | []%elem_of_nil]%elem_of_cons |].
    destruct (Z.ltb_spec 20 winners) as [? | Hhi]; simpl;
      [by intros [[=] | []%elem_of_nil]%elem_of_cons |].
    unfold datetime_add. destruct (now w + seconds <? datetime_end); simpl;
      [| by intros []%elem_of_nil].
    destruct (add_reaction ctx); simpl;
      try by intros [[=] | []%elem_of_nil]%elem_of_cons.
    intros [[=] | [[= ->] | []%elem_of_nil]%elem_of_cons]%elem_of_cons.
    eexists seconds, winners, _. split_and!; try done; lia.
  - apply create_giveaway_store.
Qed.

Lemma create_giveaway_validates_witness :
  (create_giveaway Demo.online Demo.ctx Demo.zeros ∅ "10m" "3" "Nitro"
   = Result {[7 := Giveaway 10 7 20 "Nitro" 3 700 false false]}
            [SendGiveaway 7; Reply (GiveawayCreated 7)] Demo.zeros Returned
   ∧ state_of (Giveaway 10 7 20 "Nitro" 3 700 false false) = Active)
  ∧ (res_store (create_giveaway Demo.online Demo.ctx Demo.zeros
                  {[7 := Demo.running]} "10m" "21" "Nitro")
     = {[7 := Demo.running]}
     ∧ size (res_store (create_giveaway Demo.online Demo.ctx Demo.zeros
                          {[7 := Demo.running]} "10m" "21" "Nitro"))
       = size ({[7 := Demo.running]} : gmap Z giveaway))
  ∧ (res_store (create_giveaway Demo.online Demo.ctx Demo.zeros
                  {[7 := Demo.running]} "10m" "0" "Nitro")
     = {[7 := Demo.running]})
  ∧ (res_store (create_giveaway Demo.online Demo.ctx Demo.zeros
                  {[7 := Demo.running]} "0s" "3" "Nitro")
     = {[7 := Demo.running]}).
Proof.
  destruct (create_giveaway_validates Demo.online Demo.ctx Demo.zeros
              ∅ "10m" "3" "Nitro") as (_ & Hcreate & _).
  destruct (create_giveaway_validates Demo.online Demo.ctx Demo.zeros
              {[7 := Demo.running]} "10m" "21" "Nitro") as (Hmany & _).
  destruct (create_giveaway_validates Demo.online Demo.ctx Demo.zeros
              {[7 := Demo.running]} "10m" "0" "Nitro") as (Hnone & _).
  destruct (create_giveaway_validates Demo.online Demo.ctx Demo.zeros
              {[7 := Demo.running]} "0s" "3" "Nitro") as (Htime & _).
  split; [| split; [| split]].
  - destruct (Hcreate 600 3) as (created & Hres & -> & _ & Hstate & _);
      [reflexivity | lia | reflexivity | lia | vm_compute; reflexivity
      | reflexivity |].
    split; [exact Hres | exact Hstate].
  - destruct Hmany as (Hsame & Hsize & _); [| by split].
    right; right; right. exists 21. split; [reflexivity | lia].
  - destruct Hnone as (Hsame & _); [| done].
    right; right; right. exists 0. split; [reflexivity | lia].
  - destruct Htime as (Hsame & _); [| done].
    right; left. exists 0. split; [reflexivity | lia].
Defined.

(** * Further properties of the cog *)

(** ** How the dictionary evolves *)

Lemma same_terms_refl g : same_terms g g.
Proof. by repeat split. Qed.

Lemma store_evolves_refl st : store_evolves st st.
Proof. intros id g Hg. exists g. by repeat split. Qed.

Lemma store_evolves_trans st1 st2 st3 :
  store_evolves st1 st2 → store_evolves st2 st3 → store_evolves st1 st3.
Proof.
  intros H12 H23 id g3 (g2 & Hg2 & Ht2 & Hf2)%H23.
  destruct (H12 _ _ Hg2) as (g1 & Hg1 & Ht1 & Hf1).
  exists g1. split; [done |].
  destruct Ht1 as (? & ? & ? & ? & ? & ?), Ht2 as (? & ? & ? & ? & ? & ?).
  destruct Hf1, Hf2. repeat split; try congruence; auto.
Qed.

(** Rewriting the flags of a stored giveaway, without clearing one. *)
Lemma store_evolves_insert st id g g' :
  st !! id = Some g → same_terms g g' → flags_kept g g' →
  store_evolves st (<[id := g']> st).
Proof.
  intros Hg Ht Hf k gk. destruct (decide (id = k)) as [<- | Hne].
  - rewrite lookup_insert_eq. intros [= <-]. by exists g.
  - rewrite lookup_insert_ne by done. apply store_evolves_refl.
Qed.

Lemma store_evolves_delete st id : store_evolves st (delete id st).
Proof.
  intros k gk Hk. apply lookup_delete_Some in Hk as [_ Hk].
  by apply store_evolves_refl.
Qed.

Lemma end_giveaway_evolves w r st id :
  store_evolves st (res_store (end_giveaway w r st id)).
Proof.
  destruct (st !! id) as [g|] eqn:Hg.
  - rewrite (end_giveaway_store _ _ _ _ g) by done.
    apply (store_evolves_insert _ _ g); [done | by repeat split |].
    by split.
  - rewrite end_giveaway_missing by done. apply store_evolves_refl.
Qed.

Lemma end_giveaway_dom w r st id :
  dom (res_store (end_giveaway w r st id)) = dom st.
Proof.
  destruct (st !! id) as [g|] eqn:Hg.
  - rewrite (end_giveaway_store _ _ _ _ g) by done.
    by apply dom_insert_lookup_L.
  - by rewrite end_giveaway_missing.
Qed.

Lemma cancel_giveaway_evolves w r st id :
  store_evolves st (res_store (cancel_giveaway w r st id)).
Proof.
  unfold cancel_giveaway, cancel_not_found.
  destruct (st !! id) as [g|] eqn:Hg; [| apply store_evolves_refl].
  repeat (case_match; simpl; try apply store_evolves_refl;
          try apply store_evolves_delete).
  apply (store_evolves_insert _ _ g); [done | by repeat split |].
  by split.
Qed.

Lemma check_loop_evolves w ids r st :
  store_evolves st (res_store (check_loop w ids r st)).
Proof.
  revert r st. induction ids as [|id ids IH]; intros r st; simpl.
  - apply store_evolves_refl.
  - destruct (st !! id) as [g|]; [| apply store_evolves_refl].
    destruct (end_time g <=? now w); simpl; [| apply IH].
    eapply store_evolves_trans; [apply end_giveaway_evolves | apply IH].
Qed.

(** ** The tick, in general *)

Lemma keys_stored (st : gmap Z giveaway) :
  Forall (fun id => id ∈ dom st) (keys st).
Proof.
  apply Forall_forall. intros id [[k g] [-> Hkg]]%list_elem_of_fmap.
  apply elem_of_map_to_list in Hkg. apply elem_of_dom. by exists g.
Qed.

Lemma stored_key (st : gmap Z giveaway) id :
  is_Some (st !! id) → id ∈ keys st.
Proof.
  intros [g Hg]. apply list_elem_of_fmap. exists (id, g).
  split; [done |]. by apply elem_of_map_to_list.
Qed.

(** Over ids that are all stored, the loop never meets a missing key, and
    what [end_giveaway] raises is caught: the loop returns, with the same
    keys in the dictionary. *)
Lemma check_loop_returns w ids r st :
  Forall (fun id => id ∈ dom st) ids →
  res_exit (check_loop w ids r st) = Returned
  ∧ dom (res_store (check_loop w ids r st)) = dom st.
Proof.
  revert r st. induction ids as [|id ids IH]; intros r st Hids; simpl; [done |].
  apply Forall_cons in Hids as [[g Hg]%elem_of_dom Hids]. rewrite Hg.
  destruct (end_time g <=? now w); simpl; [| by apply IH].
  destruct (IH (res_rng (end_giveaway w r st id))
               (res_store (end_giveaway w r st id))) as [Hexit Hdom].
  - by rewrite end_giveaway_dom.
  - by rewrite Hexit, Hdom, end_giveaway_dom.
Qed.

(** *** The tick among the commands *)

Lemma same_terms_trans g1 g2 g3 :
  same_terms g1 g2 → same_terms g2 g3 → same_terms g1 g3.
Proof.
  unfold same_terms. intros (? & ? & ? & ? & ? & ?) (? & ? & ? & ? & ? & ?).
  split_and!; congruence.
Qed.

Lemma draw_winners_terms g g' m r :
  same_terms g g' → draw_winners g' m r = draw_winners g m r.
Proof. intros (_ & _ & _ & _ & Hc & _). unfold draw_winners. by rewrite Hc. Qed.

Lemma store_kept_dom st st' : store_kept st st' → dom st ⊆ dom st'.
Proof.
  intros Hk id [g Hg]%elem_of_dom. destruct (Hk _ _ Hg) as (g' & Hg' & _).
  apply elem_of_dom. by exists g'.
Qed.

(** A tick during which no command changes the dictionary is the tick that
    runs alone. *)
Lemma check_loop_with_alone n w ids r st :
  check_loop_with (fun _ s => s) n w ids r st = check_loop w ids r st.
Proof.
  revert n r st. induction ids as [|id ids IH]; intros n r st; simpl; [done |].
  destruct (st !! id) as [g|]; [| done].
  destruct (end_time g <=? now w); [| apply IH]. by rewrite IH.
Qed.

Lemma check_loop_with_returns env n w ids r st :
  deletes_none env →
  Forall (fun id => id ∈ dom st) ids →
  res_exit (check_loop_with env n w ids r st) = Returned
  ∧ dom st ⊆ dom (res_store (check_loop_with env n w ids r st)).
Proof.
  intros Henv. revert n r st.
  induction ids as [|id ids IH]; intros n r st Hids; simpl; [done |].
  apply Forall_cons in Hids as [[g Hg]%elem_of_dom Hids]. rewrite Hg.
  destruct (end_time g <=? now w); simpl; [| by apply IH].
  set (after := env n (res_store (end_giveaway w r st id),
                       res_rng (end_giveaway w r st id))).
  assert (dom st ⊆ dom after.1) as Hsub.
  { etrans; [| apply Henv]. by rewrite end_giveaway_dom. }
  destruct (IH (S n) after.2 after.1) as [Hexit Hdom].
  - eapply Forall_impl; [exact Hids |]. intros i Hi. by apply Hsub.
  - split; [done | by etrans].
Qed.

(** X3.  A tick returns, whatever the platform answers, as long as the
    commands that run while it waits delete no giveaway: an exception of a
    settlement is caught and logged, and every key of the snapshot is still
    there when its turn comes.  Every giveaway is still stored afterwards.
    A tick that runs alone is such a tick, and it neither adds nor removes a
    giveaway. *)
Theorem check_giveaways_returns env w r st :
  deletes_none env →
  res_exit (check_giveaways_with env w r st) = Returned
  ∧ dom st ⊆ dom (res_store (check_giveaways_with env w r st))
  ∧ check_giveaways_with (fun _ s => s) w r st = check_giveaways w r st
  ∧ res_exit (check_giveaways w r st) = Returned
  ∧ dom (res_store (check_giveaways w r st)) = dom st
  ∧ size (res_store (check_giveaways w r st)) = size st.
Proof.
  intros Henv.
  destruct (check_loop_with_returns env 0 w (keys st) r st Henv (keys_stored st))
    as [Hexit Hsub].
  destruct (check_loop_returns w (keys st) r st (keys_stored st)) as [Hexit' Hdom].
  split_and!; try done.
  - apply check_loop_with_alone.
  - rewrite <- !size_dom. unfold check_giveaways. by rewrite Hdom.
Qed.

Lemma check_giveaways_returns_witness :
  res_exit (check_giveaways_with (fun _ s => (<[8 := Cases.later]> s.1, s.2))
              Demo.no_message Demo.zeros {[7 := Demo.running]}) = Returned.
Proof.
  apply (check_giveaways_returns (fun _ s => (<[8 := Cases.later]> s.1, s.2))
           Demo.no_message Demo.zeros {[7 := Demo.running]}).
  intros n st r. simpl. rewrite dom_insert_L. apply union_subseteq_r.
Defined.

(** X18.  When a command that runs during the settlement of one giveaway
    deletes the giveaway that is next in the snapshot, the tick leaves with
    [KeyError]: the lookup of line 47 stands outside the [try]. *)
Theorem check_loop_with_deleted_key env n w id1 id2 ids r st g1 :
  st !! id1 = Some g1 →
  end_time g1 ≤ now w →
  (env n (res_store (end_giveaway w r st id1),
          res_rng (end_giveaway w r st id1))).1 !! id2 = None →
  res_exit (check_loop_with env n w (id1 :: id2 :: ids) r st) = Raised.
Proof.
  intros Hg Hdue Hgone. simpl. rewrite Hg.
  destruct (Z.leb_spec (end_time g1) (now w)) as [_ | ?]; [| lia].
  simpl. by rewrite Hgone.
Qed.

Lemma check_loop_with_deleted_key_witness :
  res_exit
    (check_loop_with
       (fun _ s => (res_store (cancel_giveaway Cases.swept s.2 s.1 8), s.2))
       0 Cases.swept [7; 8] Demo.zeros
       {[7 := Demo.running; 8 := Cases.later]}) = Raised.
Proof.
  apply (check_loop_with_deleted_key
           (fun _ s => (res_store (cancel_giveaway Cases.swept s.2 s.1 8), s.2))
           0 Cases.swept 7 8 [] Demo.zeros
           {[7 := Demo.running; 8 := Cases.later]} Demo.running).
  - reflexivity.
  - vm_compute. discriminate.
  - reflexivity.
Defined.

Lemma check_loop_idle w ids r st :
  Forall (fun id => id ∈ dom st) ids →
  (∀ id g, st !! id = Some g → now w < end_time g) →
  check_loop w ids r st = Result st [] r Returned.
Proof.
  intros Hids Hlate. induction ids as [|id ids IH]; simpl; [done |].
  apply Forall_cons in Hids as [[g Hg]%elem_of_dom Hids]. rewrite Hg.
  destruct (Z.leb_spec (end_time g) (now w)) as [Hdue | _].
  - specialize (Hlate _ _ Hg). lia.
  - by apply IH.
Qed.

(** X2.  When no stored giveaway has reached its end time, a tick does
    nothing: the dictionary is unchanged, nothing is sent or logged, no
    random number is drawn. *)
Theorem check_giveaways_idle w r st :
  (∀ id g, st !! id = Some g → now w < end_time g) →
  check_giveaways w r st = Result st [] r Returned.
Proof. intros Hlate. apply check_loop_idle; [apply keys_stored | done]. Qed.

Lemma check_giveaways_idle_witness :
  check_giveaways Cases.early Demo.zeros {[7 := Demo.running]}
  = Result {[7 := Demo.running]} [] Demo.zeros Returned.
Proof.
  apply (check_giveaways_idle Cases.early Demo.zeros {[7 := Demo.running]}).
  intros id g [<- <-]%lookup_singleton_Some. reflexivity.
Defined.

(** Every event of [end_giveaway] is about the giveaway it was called for,
    and there is none for an id that is not stored. *)
Lemma end_giveaway_trace_about w r st id e :
  e ∈ res_trace (end_giveaway w r st id) →
  is_Some (st !! id)
  ∧ (e = LogError id ∨ ∃ ws, e = EditEnded id ws ∨ e = Announce id ws).
Proof.
  unfold end_giveaway. destruct (st !! id) as [g|]; simpl;
    [| by intros ?%elem_of_nil].
  intros He. split; [done |]. revert He.
  destruct (get_channel w _) as [ch|]; simpl.
  2: { intros [-> | ?%elem_of_nil]%elem_of_cons; [by left | done]. }
  destruct (fetch_message ch _) as [m | |]; simpl.
  2: { intros [-> | ?%elem_of_nil]%elem_of_cons; [by left | done]. }
  2: { by intros ?%elem_of_nil. }
  destruct (draw_winners _ m r) as [winners r'].
  repeat (case_match; simpl); intros He;
    repeat (apply elem_of_cons in He as [-> | He]; [eauto |]);
    by apply elem_of_nil in He.
Qed.

Lemma check_loop_with_settles env w id g0 ch m :
  keeps_giveaways env →
  end_time g0 ≤ now w →
  get_channel w (channel_id g0) = Some ch →
  fetch_message ch (message_id g0) = ApiOk m →
  fetch_user w (host_id g0) = ApiOk () →
  edit m = ApiOk () →
  send ch = ApiOk () →
  ∀ ids n r st g,
    Forall (fun i => i ∈ dom st) ids →
    id ∈ ids →
    st !! id = Some g →
    same_terms g0 g →
    ∃ r0,
      EditEnded id (draw_winners g0 m r0).1
        ∈ res_trace (check_loop_with env n w ids r st)
      ∧ Announce id (draw_winners g0 m r0).1
          ∈ res_trace (check_loop_with env n w ids r st).
Proof.
  intros Henv Hdue Hch Hm Hu He Hs ids.
  induction ids as [|i ids IH]; intros n r st g Hids Hin Hg Hterms;
    [by apply elem_of_nil in Hin |].
  apply Forall_cons in Hids as [[gi Hgi]%elem_of_dom Hids].
  simpl. rewrite Hgi.
  destruct (decide (i = id)) as [-> | Hne].
  - assert (gi = g) as -> by congruence.
    pose proof Hterms as (Hc & Hmi & Hh & _ & _ & Het).
    destruct (Z.leb_spec (end_time g) (now w)) as [_ | ?]; [| lia].
    rewrite (end_giveaway_succeeds w r st id g ch m) by congruence. simpl.
    rewrite (draw_winners_terms g0 g m r Hterms).
    exists r. rewrite !elem_of_cons. auto.
  - apply elem_of_cons in Hin as [-> | Hin]; [done |].
    destruct (end_time gi <=? now w); simpl; [| by apply (IH n r st g)].
    assert (res_store (end_giveaway w r st i) !! id = Some g) as Hg1.
    { rewrite (end_giveaway_store _ _ _ _ gi) by done.
      by rewrite lookup_insert_ne. }
    set (after := env n (res_store (end_giveaway w r st i),
                         res_rng (end_giveaway w r st i))).
    destruct (Henv n _ (res_rng (end_giveaway w r st i)) _ _ Hg1)
      as (g' & Hg' & Hterms').
    destruct (IH (S n) after.2 after.1 g') as (r0 & Hed & Han); try done.
    + eapply Forall_impl; [exact Hids |]. intros j Hj.
      apply (store_kept_dom _ _ (Henv n _ _)). by rewrite end_giveaway_dom.
    + by eapply same_terms_trans.
    + exists r0. rewrite !elem_of_app. auto.
Qed.

(** X1.  As long as the commands that run while a tick waits delete no
    giveaway and change no term of one, the tick settles every stored
    giveaway whose end time has passed, whose channel, message and host the
    platform delivers, and whose edit and announcement it accepts: the
    message is edited and winners are announced,
    [min(winner_count, |entrants|)] of them and all among the entrants.  The
    flags of the giveaway play no part, nor does a failure met while
    settling another giveaway. *)
Theorem check_giveaways_settles_every_due env w r st id g ch m :
  keeps_giveaways env →
  st !! id = Some g →
  end_time g ≤ now w →
  get_channel w (channel_id g) = Some ch →
  fetch_message ch (message_id g) = ApiOk m →
  fetch_user w (host_id g) = ApiOk () →
  edit m = ApiOk () →
  send ch = ApiOk () →
  ∃ winners,
    EditEnded id winners ∈ res_trace (check_giveaways_with env w r st)
    ∧ Announce id winners ∈ res_trace (check_giveaways_with env w r st)
    ∧ winners ⊆+ message_entrants m
    ∧ length winners
      = Z.to_nat (Z.min (winner_count g) (Z.of_nat (length (message_entrants m)))).
Proof.
  intros Henv Hg Hdue Hch Hm Hu He Hs.
  destruct (check_loop_with_settles env w id g ch m Henv Hdue Hch Hm Hu He Hs
              (keys st) 0%nat r st g) as (r0 & Hed & Han).
  - apply keys_stored.
  - by apply stored_key.
  - done.
  - apply same_terms_refl.
  - exists (draw_winners g m r0).1. split_and!; try done.
    + apply draw_winners_submseteq.
    + apply draw_winners_length.
Qed.

Lemma check_giveaways_settles_every_due_witness :
  ∃ winners,
    EditEnded 7 winners
      ∈ res_trace (check_giveaways_with
                     (fun _ s =>
                        (alter (fun g => set_cancelled true (set_ended true g))
                               8 s.1, s.2))
                     Cases.patchy Demo.zeros
                     {[7 := Demo.called_off; 8 := Cases.stray]})
    ∧ Announce 7 winners
        ∈ res_trace (check_giveaways_with
                       (fun _ s =>
                          (alter (fun g => set_cancelled true (set_ended true g))
                                 8 s.1, s.2))
                       Cases.patchy Demo.zeros
                       {[7 := Demo.called_off; 8 := Cases.stray]})
    ∧ winners ⊆+ message_entrants Demo.msg
    ∧ length winners
      = Z.to_nat (Z.min (winner_count Demo.called_off)
                        (Z.of_nat (length (message_entrants Demo.msg)))).
Proof.
  apply (check_giveaways_settles_every_due
           (fun _ s =>
              (alter (fun g => set_cancelled true (set_ended true g)) 8 s.1, s.2))
           Cases.patchy Demo.zeros
           {[7 := Demo.called_off; 8 := Cases.stray]} 7 Demo.called_off
           Demo.chan Demo.msg); try reflexivity.
  - intros n st r id g Hg. simpl. destruct (decide (id = 8)) as [-> | Hne].
    + exists (set_cancelled true (set_ended true g)).
      split; [| by repeat split].
      by rewrite lookup_alter_eq, Hg.
    + exists g. split; [| apply same_terms_refl].
      by rewrite lookup_alter_ne.
  - vm_compute. discriminate.
Defined.

Lemma check_loop_announces_due w ids r st id ws :
  Announce id ws ∈ res_trace (check_loop w ids r st) →
  ∃ g, st !! id = Some g ∧ end_time g ≤ now w.
Proof.
  revert r st. induction ids as [|i ids IH]; intros r st; simpl;
    [by intros ?%elem_of_nil |].
  destruct (st !! i) as [gi|] eqn:Hgi; simpl; [| by intros ?%elem_of_nil].
  destruct (Z.leb_spec (end_time gi) (now w)) as [Hdue | _]; simpl; [| apply IH].
  intros [Hhere | [Hlog | Hrest]%elem_of_app]%elem_of_app.
  - apply end_giveaway_trace_about in Hhere as [_ [[=] | (ws' & [[=] | [= -> _]])]].
    by exists gi.
  - destruct (res_exit _); [by apply elem_of_nil in Hlog |].
    by apply elem_of_cons in Hlog as [[=] | ?%elem_of_nil].
  - apply IH in Hrest as (g1 & Hg1 & Hdue1).
    destruct (end_giveaway_evolves w r st i _ _ Hg1) as (g & Hg & Ht & _).
    exists g. split; [done |]. destruct Ht as (_ & _ & _ & _ & _ & <-). done.
Qed.

(** X4.  A tick announces winners only for giveaways that were stored when
    it started and whose end time had passed by then. *)
Theorem check_giveaways_announces_only_due w r st id ws :
  Announce id ws ∈ res_trace (check_giveaways w r st) →
  ∃ g, st !! id = Some g ∧ end_time g ≤ now w.
Proof. apply check_loop_announces_due. Qed.

Lemma check_giveaways_announces_only_due_witness :
  ∃ g, ({[7 := Demo.running; 8 := Cases.stray]} : gmap Z giveaway) !! 7 = Some g
       ∧ end_time g ≤ now Cases.patchy.
Proof.
  apply (check_giveaways_announces_only_due Cases.patchy Demo.zeros
           {[7 := Demo.running; 8 := Cases.stray]} 7 [Demo.alice]).
  assert (res_trace (check_giveaways Cases.patchy Demo.zeros
                       {[7 := Demo.running; 8 := Cases.stray]})
          = [EditEnded 7 [Demo.alice]; Announce 7 [Demo.alice]; LogError 8])
    as -> by reflexivity.
  rewrite !elem_of_cons. auto.
Defined.

(** ** What no operation changes *)

Lemma create_giveaway_other w ctx r st time_str winners_str text id :
  id ≠ sent_id ctx →
  res_store (create_giveaway w ctx r st time_str winners_str text) !! id
  = st !! id.
Proof.
  intros Hne. unfold create_giveaway.
  repeat (case_match; simpl; try done). by rewrite lookup_insert_ne.
Qed.

(** X5.  The terms of a giveaway are fixed when it is created.  [end],
    [reroll], [cancel] and the tick add no giveaway, and leave the channel,
    message, host, prize, winner count and end time of every stored
    giveaway as they are; a flag that is set is never cleared.  [create]
    touches no key other than the id of the message it posts. *)
Theorem stored_terms_fixed w ctx r st id ids count time_str winners_str text :
  store_evolves st (res_store (end_giveaway w r st id))
  ∧ store_evolves st (res_store (end_giveaway_command w r st id))
  ∧ store_evolves st (res_store (reroll_giveaway w r st id count))
  ∧ store_evolves st (res_store (cancel_giveaway w r st id))
  ∧ store_evolves st (res_store (check_loop w ids r st))
  ∧ store_evolves st (res_store (check_giveaways w r st))
  ∧ (∀ k, k ≠ sent_id ctx →
          res_store (create_giveaway w ctx r st time_str winners_str text) !! k
          = st !! k).
Proof.
  split_and!.
  - apply end_giveaway_evolves.
  - rewrite end_giveaway_command_store. apply end_giveaway_evolves.
  - rewrite reroll_giveaway_store. apply store_evolves_refl.
  - apply cancel_giveaway_evolves.
  - apply check_loop_evolves.
  - apply check_loop_evolves.
  - intros k Hk. by apply create_giveaway_other.
Qed.

(** ** From one command to the next *)

(** X6.  A giveaway that [create] has just stored is active: [list] shows
    it under the id of the giveaway message, it is not yet due on the clock
    reading it was created at, and [reroll] refuses it as not ended,
    whatever the platform answers then. *)
Theorem created_giveaway_is_active w ctx r st time_str winners_str text
    w' r' count :
  let res := create_giveaway w ctx r st time_str winners_str text in
  Reply (GiveawayCreated (sent_id ctx)) ∈ res_trace res →
  ∃ g, res_store res !! sent_id ctx = Some g
       ∧ (sent_id ctx, g) ∈ listed (res_store res)
       ∧ now w < end_time g
       ∧ 1 ≤ winner_count g ≤ 20
       ∧ reroll_giveaway w' r' (res_store res) (sent_id ctx) count
         = Result (res_store res) [Reply NotEndedYet] r' Returned.
Proof.
  intros res. unfold res, create_giveaway.
  destruct (parse_time time_str) as [seconds|]; simpl;
    [| by intros [[=] | []%elem_of_nil]%elem_of_cons].
  destruct (Z.leb_spec seconds 0) as [? | Hs]; simpl;
    [by intros [[=] | []%elem_of_nil]%elem_of_cons |].
  destruct (Str.py_int winners_str) as [winners|]; simpl;
    [| by intros [[=] | []%elem_of_nil]%elem_of_cons].
  destruct (Z.leb_spec winners 0) as [? | Hlo]; simpl;
    [by intros [[=] | []%elem_of_nil]%elem_of_cons |].
  destruct (Z.ltb_spec 20 winners) as [? | Hhi]; simpl;
    [by intros [[=] | []%elem_of_nil]%elem_of_cons |].
  unfold datetime_add. destruct (now w + seconds <? datetime_end); simpl;
    [| by intros []%elem_of_nil].
  destruct (add_reaction ctx); simpl;
    try by intros [[=] | []%elem_of_nil]%elem_of_cons.
  intros _. eexists. split; [apply lookup_insert_eq |].
  split_and!; simpl; try lia.
  - apply listed_elem_of. by rewrite lookup_insert_eq.
  - unfold reroll_giveaway. by rewrite lookup_insert_eq.
Qed.

Lemma created_giveaway_is_active_witness :
  ∃ g, res_store (create_giveaway Demo.online Demo.ctx Demo.zeros ∅
                    "10m" "3" "Nitro") !! 7 = Some g
       ∧ (7, g) ∈ listed (res_store (create_giveaway Demo.online Demo.ctx
                                       Demo.zeros ∅ "10m" "3" "Nitro"))
       ∧ 100 < end_time g
       ∧ 1 ≤ winner_count g ≤ 20
       ∧ reroll_giveaway Demo.no_channel Demo.ones
           (res_store (create_giveaway Demo.online Demo.ctx Demo.zeros ∅
                         "10m" "3" "Nitro")) 7 None
         = Result (res_store (create_giveaway Demo.online Demo.ctx Demo.zeros ∅
                                "10m" "3" "Nitro"))
                  [Reply NotEndedYet] Demo.ones Returned.
Proof.
  apply (created_giveaway_is_active Demo.online Demo.ctx Demo.zeros ∅
           "10m" "3" "Nitro" Demo.no_channel Demo.ones None).
  assert (res_trace (create_giveaway Demo.online Demo.ctx Demo.zeros ∅
                       "10m" "3" "Nitro")
          = [SendGiveaway 7; Reply (GiveawayCreated 7)]) as -> by reflexivity.
  rewrite !elem_of_cons. auto.
Defined.

(** X7.  Once [end_giveaway] has run on a stored giveaway, whether it
    settled it or stopped for want of the channel or the message, the
    giveaway is closed to the commands for active ones: [list] no longer
    shows it and [cancel] answers that it has already ended and changes
    nothing.  Later ticks and commands do not reopen it. *)
Theorem ended_giveaway_is_closed w r st id g w' r' st' :
  st !! id = Some g →
  store_evolves (res_store (end_giveaway w r st id)) st' →
  (∀ g', (id, g') ∉ listed st')
  ∧ (is_Some (st' !! id) →
     cancel_giveaway w' r' st' id = Result st' [Reply AlreadyEnded] r' Returned).
Proof.
  intros Hg Hev.
  assert (∀ g', st' !! id = Some g' → ended g' = true) as Hended.
  { intros g' (g1 & Hg1 & _ & [He _])%Hev.
    rewrite (end_giveaway_store _ _ _ _ g) in Hg1 by done.
    rewrite lookup_insert_eq in Hg1. injection Hg1 as <-. by apply He. }
  split.
  - intros g' [Hg' He]%listed_elem_of. apply Hended in Hg'. congruence.
  - intros [g' Hg']. unfold cancel_giveaway. rewrite Hg'.
    by rewrite (Hended _ Hg').
Qed.

Lemma ended_giveaway_is_closed_witness :
  (∀ g', (7, g') ∉ listed (res_store (end_giveaway Demo.no_channel Demo.zeros
                                        {[7 := Demo.running]} 7)))
  ∧ (is_Some (res_store (end_giveaway Demo.no_channel Demo.zeros
                           {[7 := Demo.running]} 7) !! 7) →
     cancel_giveaway Demo.online Demo.ones
       (res_store (end_giveaway Demo.no_channel Demo.zeros
                     {[7 := Demo.running]} 7)) 7
     = Result (res_store (end_giveaway Demo.no_channel Demo.zeros
                            {[7 := Demo.running]} 7))
              [Reply AlreadyEnded] Demo.ones Returned).
Proof.
  apply (ended_giveaway_is_closed Demo.no_channel Demo.zeros
           {[7 := Demo.running]} 7 Demo.running Demo.online Demo.ones).
  - reflexivity.
  - apply store_evolves_refl.
Defined.

(** X8.  [end] on a stored giveaway whose channel is not cached, or whose
    message is gone, settles nothing: it logs the error, yet marks the
    giveaway as ended and replies that the giveaway has ended. *)
Theorem end_giveaway_command_confirms_abort w r st id g :
  st !! id = Some g →
  (get_channel w (channel_id g) = None
   ∨ ∃ ch, get_channel w (channel_id g) = Some ch
           ∧ fetch_message ch (message_id g) = ApiNotFound) →
  end_giveaway_command w r st id
  = Result (<[id := set_ended true g]> st)
           [LogError id; Reply GiveawayEnded] r Returned.
Proof.
  intros Hg Hgone. unfold end_giveaway_command, end_giveaway. rewrite Hg. simpl.
  destruct Hgone as [-> | (ch & -> & ->)]; done.
Qed.

Lemma end_giveaway_command_confirms_abort_witness :
  end_giveaway_command Demo.no_message Demo.zeros {[7 := Demo.running]} 7
  = Result (<[7 := set_ended true Demo.running]> {[7 := Demo.running]})
           [LogError 7; Reply GiveawayEnded] Demo.zeros Returned.
Proof.
  apply (end_giveaway_command_confirms_abort Demo.no_message Demo.zeros
           {[7 := Demo.running]} 7 Demo.running).
  - reflexivity.
  - right. eexists. split; reflexivity.
Defined.

(** ** The time of [create] *)

Lemma digit_val_nonneg c : Str.is_digit c = true → 0 ≤ Str.digit_val c.
Proof. by_char c. Qed.

Lemma decimal_from_nonneg ds acc :
  0 ≤ acc → Str.all_digits ds = true → 0 ≤ Str.decimal_from acc ds.
Proof.
  revert acc. induction ds as [|c ds IH]; intros acc Hacc; simpl; [done |].
  intros [Hc Hds]%andb_prop. apply IH; [| done].
  pose proof (digit_val_nonneg c Hc). lia.
Qed.

Lemma unit_seconds_pos u : 0 < unit_seconds u.
Proof. unfold unit_seconds. repeat case_match; lia. Qed.

(** [parse_time] never returns a negative number of seconds. *)
Lemma parse_time_nonneg s n : parse_time s = Some n → 0 ≤ n.
Proof.
  intros Hp.
  destruct (parse_time_some_inv s n Hp) as (ds & u & rest & -> & Hne & Hds & Hu).
  rewrite parse_time_prefix in Hp by done. injection Hp as <-.
  pose proof (decimal_from_nonneg ds 0 ltac:(lia) Hds).
  pose proof (unit_seconds_pos (Str.lower_ascii u)).
  unfold Str.decimal. nia.
Qed.

(** X9.  [parse_time] never returns a negative number of seconds, so
    [create] answers that the time must be positive exactly when the time
    parses to zero seconds (["0s"], ["00h"]); a time that does not parse
    gets the other reply. *)
Theorem create_giveaway_refuses_zero_time w ctx r st time_str winners_str text :
  (res_trace (create_giveaway w ctx r st time_str winners_str text)
   = [Reply TimeNotPositive]
   ↔ parse_time time_str = Some 0)
  ∧ (∀ n, parse_time time_str = Some n → 0 ≤ n)
  ∧ (parse_time time_str = None →
     res_trace (create_giveaway w ctx r st time_str winners_str text)
     = [Reply InvalidTimeFormat]).
Proof.
  split_and!.
  - unfold create_giveaway. split.
    + destruct (parse_time time_str) as [seconds|] eqn:Hp; simpl; [| done].
      destruct (Z.leb_spec seconds 0) as [Hle | Hpos]; simpl.
      * intros _. f_equal. pose proof (parse_time_nonneg _ _ Hp). lia.
      * repeat (case_match; simpl; try done).
    + by intros ->.
  - apply parse_time_nonneg.
  - unfold create_giveaway. by intros ->.
Qed.

(** ** The winners of a reroll *)

Lemma entrants_not_bot rc u : u ∈ entrants rc → u ∈ users rc ∧ bot u = false.
Proof.
  unfold entrants. rewrite !list_elem_of_In, filter_In.
  intros [Hu Hb]. split; [done |]. by destruct (bot u).
Qed.

(** X10.  A reroll of an ended giveaway whose message still carries the
    reaction draws [min(count, |entrants|)] new winners, [count] being the
    count given with the command or else the stored one: they are pairwise
    distinct, none is a bot and all reacted to the message.  They go out in
    one reply, which says that no winner could be determined when the draw
    is empty. *)
Theorem reroll_giveaway_winners w r st id count g c ch m rc :
  st !! id = Some g →
  ended g = true →
  reroll_count g count = inr c →
  get_channel w (channel_id g) = Some ch →
  fetch_message ch (message_id g) = ApiOk m →
  find_reaction m = Some rc →
  NoDup (users rc) →
  let winners := (select_winners c (entrants rc) r).1 in
  reroll_giveaway w r st id count
  = Result st [Reply (match winners with
                      | [] => NoNewWinners
                      | _ => NewWinners winners
                      end)]
           (select_winners c (entrants rc) r).2 Returned
  ∧ length winners = Z.to_nat (Z.min c (Z.of_nat (length (entrants rc))))
  ∧ NoDup winners
  ∧ (∀ u, u ∈ winners → u ∈ users rc ∧ bot u = false).
Proof.
  intros Hg He Hc Hch Hm Hrc Hnd winners. split_and!.
  - unfold reroll_giveaway. rewrite Hg, He, Hc, Hch, Hm, Hrc. simpl.
    unfold winners. destruct (select_winners c (entrants rc) r) as [ws r'].
    by destruct ws.
  - apply select_winners_length.
  - apply (submseteq_NoDup _ (entrants rc)); [apply select_winners_submseteq |].
    unfold entrants. apply NoDup_ListNoDup, List.NoDup_filter.
    by apply NoDup_ListNoDup.
  - intros u Hu. apply entrants_not_bot.
    eapply elem_of_submseteq; [done | apply select_winners_submseteq].
Qed.

Lemma reroll_giveaway_winners_witness :
  let winners := (select_winners 5 (entrants Demo.party) Demo.ones).1 in
  reroll_giveaway Demo.online Demo.ones {[7 := Demo.finished]} 7 (Some "5")
  = Result {[7 := Demo.finished]}
           [Reply (match winners with
                   | [] => NoNewWinners
                   | _ => NewWinners winners
                   end)]
           (select_winners 5 (entrants Demo.party) Demo.ones).2 Returned
  ∧ length winners
    = Z.to_nat (Z.min 5 (Z.of_nat (length (entrants Demo.party))))
  ∧ NoDup winners
  ∧ (∀ u, u ∈ winners → u ∈ users Demo.party ∧ bot u = false).
Proof.
  apply (reroll_giveaway_winners Demo.online Demo.ones {[7 := Demo.finished]} 7
           (Some "5") Demo.finished 5 Demo.chan Demo.msg Demo.party);
    try reflexivity.
  apply (bool_decide_unpack _). vm_compute. exact I.
Defined.

(** X11.  A reroll with a winner count that is not a number, or not within
    1..20, is refused before the platform is asked for anything: the reply
    is the refusal, no winner is drawn and the dictionary is unchanged.  An
    empty count counts as none given. *)
Theorem reroll_giveaway_refuses_count w r st id g s :
  st !! id = Some g →
  ended g = true →
  s ≠ "" →
  (Str.py_int s = None
   ∨ ∃ c, Str.py_int s = Some c ∧ (c < 1 ∨ 20 < c)) →
  (∃ e, reroll_giveaway w r st id (Some s) = Result st [Reply e] r Returned
        ∧ invalid_argument e = true)
  ∧ reroll_giveaway w r st id (Some "") = reroll_giveaway w r st id None.
Proof.
  intros Hg He Hne Hbad. split; [| done].
  unfold reroll_giveaway, reroll_count. rewrite Hg, He. simpl.
  destruct s as [|a s]; [done |].
  destruct Hbad as [-> | (c & -> & Hc)]; [by eauto |].
  destruct (Z.leb_spec c 0); [by eauto |].
  destruct (Z.ltb_spec 20 c); [by eauto | lia].
Qed.

Lemma reroll_giveaway_refuses_count_witness :
  (∃ e, reroll_giveaway Demo.online Demo.ones {[7 := Demo.finished]} 7 (Some "21")
        = Result {[7 := Demo.finished]} [Reply e] Demo.ones Returned
        ∧ invalid_argument e = true)
  ∧ reroll_giveaway Demo.online Demo.ones {[7 := Demo.finished]} 7 (Some "")
    = reroll_giveaway Demo.online Demo.ones {[7 := Demo.finished]} 7 None.
Proof.
  apply (reroll_giveaway_refuses_count Demo.online Demo.ones
           {[7 := Demo.finished]} 7 Demo.finished "21");
    [reflexivity | reflexivity | discriminate |].
  right. exists 21. split; [reflexivity | lia].
Defined.

(** X12.  A reroll only talks to the context it was called from: it sends
    at most one reply, and never edits the giveaway message, posts in the
    giveaway channel or writes to the log. *)
Theorem reroll_giveaway_only_replies w r st id count :
  Forall (fun e => is_reply e = true) (res_trace (reroll_giveaway w r st id count))
  ∧ (length (res_trace (reroll_giveaway w r st id count)) ≤ 1)%nat.
Proof.
  unfold reroll_giveaway.
  repeat (case_match; simpl; try (split; [by repeat constructor | lia])).
Qed.

(** ** Numbers as text *)

Lemma append_assoc (a b c : string) : ((a ++ b) ++ c = a ++ (b ++ c))%string.
Proof.
  induction a as [|x a IH]; [done |].
  change (String x ((a ++ b) ++ c) = String x (a ++ (b ++ c)))%string.
  by f_equal.
Qed.

Lemma all_digits_app (a b : string) :
  Str.all_digits (a ++ b)%string = Str.all_digits a && Str.all_digits b.
Proof. induction a as [|x a IH]; simpl; [done |]. by rewrite IH, andb_assoc. Qed.

Lemma decimal_from_app (a b : string) acc :
  Str.decimal_from acc (a ++ b)%string
  = Str.decimal_from (Str.decimal_from acc a) b.
Proof. revert acc. induction a as [|x a IH]; intros acc; simpl; [done | apply IH]. Qed.

Lemma digit_char_digit d :
  0 ≤ d < 10 →
  Str.is_digit (Fmt.digit_char d) = true ∧ Str.digit_val (Fmt.digit_char d) = d.
Proof.
  intros Hd.
  assert (d = 0 ∨ d = 1 ∨ d = 2 ∨ d = 3 ∨ d = 4 ∨ d = 5 ∨ d = 6 ∨ d = 7
          ∨ d = 8 ∨ d = 9) as Hcases by lia.
  repeat (destruct Hcases as [-> | Hcases]; [by vm_compute |]).
  subst d. by vm_compute.
Qed.

Lemma digits_app fuel n acc :
  Fmt.digits fuel n acc = (Fmt.digits fuel n "" ++ acc)%string.
Proof.
  revert n acc. induction fuel as [|fuel IH]; intros n acc; simpl; [done |].
  destruct (n / 10 =? 0); [done |].
  rewrite (IH (n / 10) (String _ acc)), (IH (n / 10) (String _ "")).
  by rewrite append_assoc.
Qed.

Lemma digits_S fuel n acc :
  Fmt.digits (S fuel) n acc
  = if n / 10 =? 0 then String (Fmt.digit_char (n mod 10)) acc
    else Fmt.digits fuel (n / 10) (String (Fmt.digit_char (n mod 10)) acc).
Proof. done. Qed.

(** With enough fuel, the digits of [n] are a numeral whose value is [n]. *)
Lemma digits_decimal fuel n :
  0 ≤ n < 2 ^ Z.of_nat (S fuel) →
  Fmt.digits (S fuel) n "" ≠ ""
  ∧ Str.all_digits (Fmt.digits (S fuel) n "") = true
  ∧ Str.decimal (Fmt.digits (S fuel) n "") = n.
Proof.
  revert n. induction fuel as [|fuel IH]; intros n Hn.
  - assert (n / 10 = 0) as Hq.
    { apply Z.div_small. change (2 ^ Z.of_nat 1) with 2 in Hn. lia. }
    rewrite digits_S, Hq. simpl.
    destruct (digit_char_digit (n mod 10)) as [Hd Hv];
      [apply Z.mod_pos_bound; lia |].
    unfold Str.decimal. simpl. rewrite Hd, Hv. split_and!; try done.
    rewrite Z.mod_small; [done |]. change (2 ^ Z.of_nat 1) with 2 in Hn. lia.
  - destruct (digit_char_digit (n mod 10)) as [Hd Hv];
      [apply Z.mod_pos_bound; lia |].
    rewrite (digits_S (S fuel)). destruct (Z.eqb_spec (n / 10) 0) as [Hq | Hq].
    + unfold Str.decimal. simpl. rewrite Hd, Hv. split_and!; try done.
      pose proof (Z.div_mod n 10 ltac:(lia)). lia.
    + rewrite digits_app.
      destruct (IH (n / 10)) as (Hne & Hall & Hval).
      { rewrite Nat2Z.inj_succ, Z.pow_succ_r in Hn by lia.
        split; [apply Z.div_pos; lia |].
        apply Z.div_lt_upper_bound; lia. }
      split_and!.
      * by destruct (Fmt.digits (S fuel) (n / 10) "").
      * rewrite all_digits_app, Hall. simpl. by rewrite Hd.
      * unfold Str.decimal in *. rewrite decimal_from_app, Hval. simpl.
        rewrite Hv. pose proof (Z.div_mod n 10 ltac:(lia)). lia.
Qed.

Lemma py_str_digits n :
  0 ≤ n →
  Fmt.py_str n ≠ "" ∧ Str.all_digits (Fmt.py_str n) = true
  ∧ Str.decimal (Fmt.py_str n) = n.
Proof.
  intros Hn. unfold Fmt.py_str.
  destruct (Z.ltb_spec n 0) as [? | _]; [lia |].
  apply digits_decimal. split; [done |].
  rewrite Nat2Z.inj_succ, Z2Nat.id by apply Z.log2_nonneg.
  destruct (decide (n = 0)) as [-> | Hpos]; [done |].
  apply Z.log2_spec. lia.
Qed.

(** Reading back what was written: [int(str(n))] is [n], for every
    integer. *)
Lemma py_int_py_str n : Str.py_int (Fmt.py_str n) = Some n.
Proof.
  destruct (Z.ltb_spec n 0) as [Hneg | Hpos].
  - destruct (py_str_digits (- n) ltac:(lia)) as (Hne & Hall & Hval).
    unfold Fmt.py_str in *.
    destruct (Z.ltb_spec n 0) as [_ | ?]; [| lia].
    destruct (Z.ltb_spec (- n) 0) as [? | _]; [lia |].
    remember (Fmt.digits (S (Z.to_nat (Z.log2 (- n)))) (- n) "") as ds.
    unfold Str.py_int. cbn [Str.lstrip]. change (Str.is_space "-") with false.
    cbn iota. cbn [Str.rstrip]. rewrite rstrip_digits by done.
    destruct ds as [|c ds]; [done |].
    change (Ascii.eqb "-" "-") with true. cbn iota.
    rewrite int_digits_decimal by done.
    change (Str.decimal_from 0 (String c ds)) with (Str.decimal (String c ds)).
    rewrite Hval. simpl. f_equal. lia.
  - destruct (py_str_digits n Hpos) as (Hne & Hall & Hval).
    rewrite py_int_digits by done. by rewrite Hval.
Qed.

(** ** The time left *)

Lemma unit_lower u : is_unit u = true → Str.lower_ascii u = u.
Proof. by_char u. Qed.

(** A count followed by a unit letter is a time that [parse_time] reads. *)
Lemma parse_time_part n u :
  0 ≤ n → is_unit u = true →
  parse_time (Fmt.py_str n ++ String u "")%string = Some (n * unit_seconds u).
Proof.
  intros Hn Hu. destruct (py_str_digits n Hn) as (Hne & Hall & Hval).
  rewrite parse_time_prefix by (by rewrite ?unit_lower).
  by rewrite Hval, unit_lower.
Qed.

(** The fields of a [timedelta] that is not negative. *)
Lemma td_fields td :
  0 ≤ td →
  0 ≤ td_days td
  ∧ 0 ≤ td_seconds td / 3600 < 24
  ∧ 0 ≤ (td_seconds td mod 3600) / 60 < 60
  ∧ 0 ≤ (td_seconds td mod 3600) mod 60 < 60
  ∧ td / 1000000
    = td_days td * 86400 + td_seconds td / 3600 * 3600
      + (td_seconds td mod 3600) / 60 * 60 + (td_seconds td mod 3600) mod 60.
Proof.
  intros Htd. unfold td_days, td_seconds.
  replace (td / 86400000000) with (td / 1000000 / 86400)
    by (rewrite Z.div_div by lia; done).
  pose proof (Z.div_pos td 1000000 Htd ltac:(lia)) as Hs.
  generalize dependent (td / 1000000). intros s Hs.
  Z.div_mod_to_equations. lia.
Qed.

(** X13.  With less than a minute left, the text shows the whole seconds
    that are left; with less than one second left it names no unit at all
    and reads [" left"]. *)
Theorem time_left_str_under_a_minute td :
  0 < td →
  td < 60000000 →
  time_left_str td
  = if td <? 1000000 then " left"
    else (Fmt.py_str (td / 1000000) ++ "s left")%string.
Proof.
  intros Hpos Hmin. unfold time_left_str.
  destruct (Z.leb_spec td 0) as [? | _]; [lia |].
  destruct (td_fields td ltac:(lia)) as (Hd & Hh & Hm & Hs & Hsum).
  assert (td / 1000000 < 60) as Hlt by (apply Z.div_lt_upper_bound; lia).
  assert (td_days td = 0) as Hd0 by lia.
  assert (td_seconds td / 3600 = 0) as Hh0 by lia.
  assert ((td_seconds td mod 3600) / 60 = 0) as Hm0 by lia.
  assert ((td_seconds td mod 3600) mod 60 = td / 1000000) as Hs0 by lia.
  unfold time_parts. cbv zeta. rewrite Hd0, Hh0, Hm0, Hs0. simpl.
  destruct (Z.ltb_spec td 1000000) as [Hsub | Hsec].
  - rewrite Z.div_small by lia. done.
  - destruct (Z.ltb_spec 0 (td / 1000000)) as [_ | Hz];
      [cbn [Fmt.join]; by rewrite append_assoc |].
    pose proof (Z.div_le_lower_bound td 1000000 1 ltac:(lia) ltac:(lia)). lia.
Qed.

Lemma time_left_str_under_a_minute_witness :
  time_left_str 500000 = " left" ∧ time_left_str 59999999 = "59s left".
Proof.
  split.
  - apply (time_left_str_under_a_minute 500000); lia.
  - apply (time_left_str_under_a_minute 59999999); lia.
Defined.

(** X14.  From one minute on, the seconds are not shown: the parts of the
    text are those of the time left cut down to whole minutes. *)
Theorem time_parts_drop_seconds td :
  60000000 ≤ td →
  time_parts td = time_parts (td - td mod 60000000)
  ∧ time_parts td ≠ [].
Proof.
  intros Hmin.
  destruct (td_fields td ltac:(lia)) as (Hd & Hh & Hm & Hs & Hsum).
  assert (0 ≤ td - td mod 60000000) as Hcut
    by (pose proof (Z.mod_pos_bound td 60000000 ltac:(lia)); lia).
  destruct (td_fields _ Hcut) as (Hd' & Hh' & Hm' & Hs' & Hsum').
  assert ((td - td mod 60000000) / 1000000
          = td / 1000000 - (td / 1000000) mod 60) as Hcut_s.
  { clear. Z.div_mod_to_equations. lia. }
  assert (60 ≤ td / 1000000) as Hs60
    by (apply Z.div_le_lower_bound; lia).
  rewrite Hcut_s in Hsum'.
  assert ((td / 1000000) mod 60 = (td_seconds td mod 3600) mod 60) as Hse.
  { rewrite Hsum at 1.
    replace (td_days td * 86400 + td_seconds td / 3600 * 3600
             + (td_seconds td mod 3600) / 60 * 60 + (td_seconds td mod 3600) mod 60)
      with ((td_seconds td mod 3600) mod 60
            + (td_days td * 1440 + td_seconds td / 3600 * 60
               + (td_seconds td mod 3600) / 60) * 60) by lia.
    rewrite Z.mod_add by lia. apply Z.mod_small. lia. }
  rewrite Hse in Hsum'.
  assert (td_days (td - td mod 60000000) = td_days td) as Ed by lia.
  assert (td_seconds (td - td mod 60000000) / 3600 = td_seconds td / 3600)
    as Eh by lia.
  assert ((td_seconds (td - td mod 60000000) mod 3600) / 60
          = (td_seconds td mod 3600) / 60) as Em by lia.
  unfold time_parts. cbv zeta. rewrite Ed, Eh, Em.
  destruct (Z.ltb_spec 0 (td_days td)); simpl; [done |].
  destruct (Z.ltb_spec 0 (td_seconds td / 3600)); simpl; [done |].
  destruct (Z.ltb_spec 0 ((td_seconds td mod 3600) / 60)); simpl; [done |].
  lia.
Qed.

Lemma time_parts_drop_seconds_witness :
  time_parts 277259000017 = time_parts 277200000000
  ∧ time_parts 277259000017 ≠ [].
Proof. apply (time_parts_drop_seconds 277259000017). lia. Defined.

(** X15.  What [list] writes can be read back by [create]: every part of
    the time text is a time that [parse_time] accepts, for a positive number
    of seconds, and the parts add up to the time left in whole seconds when
    that is under a minute, and cut down to whole minutes otherwise. *)
Theorem time_parts_parse_back td :
  0 < td →
  Forall (fun p => ∃ v, parse_time p = Some v ∧ 0 < v) (time_parts td)
  ∧ parts_seconds (time_parts td)
    = if td / 1000000 <? 60 then td / 1000000 else 60 * (td / 60000000).
Proof.
  intros Hpos.
  destruct (td_fields td ltac:(lia)) as (Hd & Hh & Hm & Hs & Hsum).
  assert (td / 60000000 = td / 1000000 / 60) as Hmins
    by (rewrite Z.div_div by lia; done).
  assert (td / 1000000 / 60
          = td_days td * 1440 + td_seconds td / 3600 * 60
            + (td_seconds td mod 3600) / 60) as Hq.
  { rewrite Hsum. clear -Hs. Z.div_mod_to_equations. lia. }
  unfold time_parts, parts_seconds. cbv zeta.
  destruct (Z.ltb_spec 0 (td_days td));
    destruct (Z.ltb_spec 0 (td_seconds td / 3600));
    destruct (Z.ltb_spec 0 ((td_seconds td mod 3600) / 60));
    cbn [app foldr];
    try destruct (Z.ltb_spec 0 ((td_seconds td mod 3600) mod 60));
    cbn [foldr];
    rewrite ?parse_time_part by (done || lia);
    (split;
     [ repeat (apply Forall_cons; split;
               [eexists; split; [by apply parse_time_part; [lia |] |];
                unfold unit_seconds; simpl; lia |]);
       constructor
     | destruct (Z.ltb_spec (td / 1000000) 60);
       unfold unit_seconds; simpl; lia ]).
Qed.

Lemma time_parts_parse_back_witness :
  Forall (fun p => ∃ v, parse_time p = Some v ∧ 0 < v) (time_parts 277259000017)
  ∧ parts_seconds (time_parts 277259000017)
    = if 277259000017 / 1000000 <? 60 then 277259000017 / 1000000
      else 60 * (277259000017 / 60000000).
Proof. apply (time_parts_parse_back 277259000017). lia. Defined.

(** ** Who wins *)

Lemma message_entrants_not_bot m u : u ∈ message_entrants m → bot u = false.
Proof.
  unfold message_entrants. destruct (find_reaction m) as [rc|].
  - by intros [_ ?]%entrants_not_bot.
  - by intros ?%elem_of_nil.
Qed.

(** The winners [end_giveaway] announces are those it drew from the
    message it fetched. *)
Lemma end_giveaway_announced w r st id ws :
  Announce id ws ∈ res_trace (end_giveaway w r st id) →
  ∃ g ch m, st !! id = Some g
            ∧ get_channel w (channel_id g) = Some ch
            ∧ fetch_message ch (message_id g) = ApiOk m
            ∧ ws = (draw_winners g m r).1.
Proof.
  unfold end_giveaway. destruct (st !! id) as [g|]; simpl;
    [| by intros ?%elem_of_nil].
  destruct (get_channel w (channel_id g)) as [ch|] eqn:Hch; simpl.
  2: { by intros [[=] | ?%elem_of_nil]%elem_of_cons. }
  destruct (fetch_message ch (message_id g)) as [m | |] eqn:Hm; simpl.
  2: { by intros [[=] | ?%elem_of_nil]%elem_of_cons. }
  2: { by intros ?%elem_of_nil. }
  change (draw_winners (set_ended true g) m r) with (draw_winners g m r).
  destruct (draw_winners g m r) as [winners r'] eqn:Hd.
  intros Hin. exists g, ch, m. split_and!; try done.
  rewrite Hd. simpl. revert Hin. repeat (case_match; simpl); intros Hin;
    repeat (apply elem_of_cons in Hin as [Heq | Hin]; [by simplify_eq |]);
    by apply elem_of_nil in Hin.
Qed.

Lemma check_loop_announced w ids r st id ws :
  Announce id ws ∈ res_trace (check_loop w ids r st) →
  ∃ r0 st0, Announce id ws ∈ res_trace (end_giveaway w r0 st0 id).
Proof.
  revert r st. induction ids as [|i ids IH]; intros r st; simpl;
    [by intros ?%elem_of_nil |].
  destruct (st !! i) as [gi|] eqn:Hgi; simpl; [| by intros ?%elem_of_nil].
  destruct (end_time gi <=? now w); simpl; [| apply IH].
  intros [Hhere | [Hlog | Hrest]%elem_of_app]%elem_of_app.
  - pose proof Hhere as Habout.
    apply end_giveaway_trace_about in Habout
      as [_ [[=] | (ws' & [[=] | [= -> _]])]].
    by exists r, st.
  - destruct (res_exit _); [by apply elem_of_nil in Hlog |].
    by apply elem_of_cons in Hlog as [[=] | ?%elem_of_nil].
  - by apply IH in Hrest.
Qed.

(** X16.  No bot is ever announced as a winner, neither by a tick nor by
    the [end] command, even though bots may have reacted to the message. *)
Theorem announced_winners_are_not_bots w r st id ws u :
  Announce id ws ∈ res_trace (check_giveaways w r st)
  ∨ Announce id ws ∈ res_trace (end_giveaway_command w r st id)
  ∨ Announce id ws ∈ res_trace (end_giveaway w r st id) →
  u ∈ ws →
  bot u = false.
Proof.
  intros Hann Hu.
  assert (∃ r0 st0, Announce id ws ∈ res_trace (end_giveaway w r0 st0 id))
    as (r0 & st0 & Hin).
  { destruct Hann as [Htick | [Hcmd | Hend]].
    - by apply check_loop_announced in Htick.
    - exists r, st. revert Hcmd. unfold end_giveaway_command.
      destruct (st !! id); simpl;
        [| by intros [[=] | ?%elem_of_nil]%elem_of_cons].
      destruct (res_exit _); simpl; [| done].
      intros [? | [[=] | ?%elem_of_nil]%elem_of_cons]%elem_of_app; done.
    - by exists r, st. }
  apply end_giveaway_announced in Hin as (g & ch & m & _ & _ & _ & ->).
  eapply message_entrants_not_bot, elem_of_submseteq;
    [done | apply draw_winners_submseteq].
Qed.

Lemma announced_winners_are_not_bots_witness : bot Demo.alice = false.
Proof.
  apply (announced_winners_are_not_bots Demo.online Demo.zeros
           {[7 := Demo.running]} 7 [Demo.alice] Demo.alice).
  - left.
    assert (res_trace (check_giveaways Demo.online Demo.zeros {[7 := Demo.running]})
            = [EditEnded 7 [Demo.alice]; Announce 7 [Demo.alice]])
      as -> by reflexivity.
    rewrite !elem_of_cons. auto.
  - rewrite elem_of_cons. auto.
Defined.

(** X17.  When the winner count is at least the number of entrants, every
    entrant wins: the winners drawn at settlement are the entrants, in some
    order. *)
Theorem draw_winners_all_entrants w r st id g ch m :
  st !! id = Some g →
  get_channel w (channel_id g) = Some ch →
  fetch_message ch (message_id g) = ApiOk m →
  fetch_user w (host_id g) = ApiOk () →
  edit m = ApiOk () →
  send ch = ApiOk () →
  Z.of_nat (length (message_entrants m)) ≤ winner_count g →
  ∃ winners,
    res_trace (end_giveaway w r st id)
    = [EditEnded id winners; Announce id winners]
    ∧ winners ≡ₚ message_entrants m.
Proof.
  intros Hg Hch Hm Hu He Hs Hcount.
  exists (draw_winners g m r).1. split.
  - by rewrite (end_giveaway_succeeds w r st id g ch m).
  - apply submseteq_length_Permutation; [apply draw_winners_submseteq |].
    rewrite draw_winners_length. lia.
Qed.

Lemma draw_winners_all_entrants_witness :
  ∃ winners,
    res_trace (end_giveaway Demo.online Demo.ones {[8 := Cases.stray]} 8)
    = [EditEnded 8 winners; Announce 8 winners]
    ∧ winners ≡ₚ message_entrants Demo.msg.
Proof.
  apply (draw_winners_all_entrants Demo.online Demo.ones {[8 := Cases.stray]} 8
           Cases.stray Demo.chan Demo.msg); reflexivity.
Defined.
